(** * Mood-Api: a shallow embedding of [app.py] and its journaling rules

    The Flask handlers of [app.py] are written as functions from a database
    state (the two SQLAlchemy tables) and the request's inputs to the new
    database state and the HTTP response.  Everything the handlers read from
    the outside world (the wall-clock date, the salt of the password hasher,
    the outcome of the Cloudinary calls) is an explicit input. *)

From Stdlib Require Import ZArith List String Ascii Bool Lia Arith.
From Stdlib Require Import Sorting.Sorted Sorting.Permutation.
From Stdlib Require Import DecimalString DecimalZ DecimalPos DecimalNat.
Import ListNotations.

Set Implicit Arguments.

(** ** Python values used by the handlers *)

Module Py.

(** [str(n)] on an integer. *)
Definition str (n : Z) : string := NilZero.string_of_int (Z.to_int n).

(** [int(s)] on a decimal string; [None] stands for [ValueError]. *)
Definition int (s : string) : option Z :=
  option_map Z.of_int (NilZero.int_of_string s).

(** Truthiness of a value that is [None] or a string: [if nome:]. *)
Definition truthy (v : option string) : bool :=
  match v with
  | None => false
  | Some s => negb (String.eqb s EmptyString)
  end.

(** [a or b] where [a] is [None] or a string. *)
Definition or_else (a : option string) (b : string) : string :=
  match a with
  | Some s => if String.eqb s EmptyString then b else s
  | None => b
  end.

(** [l[n:]] and [l[:n]] are [skipn n l] and [firstn n l]. *)

End Py.

(** ** Calendar dates ([datetime.date]) *)

Record date := mkdate { year : nat; month : nat; day : nat }.

Definition date_eqb (a b : date) : bool :=
  Nat.eqb (year a) (year b) && Nat.eqb (month a) (month b)
  && Nat.eqb (day a) (day b).

(** Chronological order: year, then month, then day. *)
Definition date_leb (a b : date) : bool :=
  if Nat.ltb (year a) (year b) then true
  else if Nat.ltb (year b) (year a) then false
  else if Nat.ltb (month a) (month b) then true
  else if Nat.ltb (month b) (month a) then false
  else Nat.leb (day a) (day b).

Definition date_ltb (a b : date) : bool := negb (date_leb b a).

Definition two_digits (n : nat) : string :=
  let s := NilZero.string_of_uint (Nat.to_uint n) in
  if Nat.ltb n 10 then String "0"%char s else s.

(** [d.strftime("%Y-%m-%d")]; the year is printed in decimal. *)
Definition strftime_Ymd (d : date) : string :=
  (NilZero.string_of_uint (Nat.to_uint (year d)) ++ "-"
   ++ two_digits (month d) ++ "-" ++ two_digits (day d))%string.

(** ** The persistence schema *)

(** A column value as the store sees it; [None] is SQL [NULL]. *)
Inductive value :=
| VInt (z : Z)
| VStr (s : string)
| VDate (d : date)
| VBool (b : bool).

Definition value_eqb (a b : value) : bool :=
  match a, b with
  | VInt x, VInt y => Z.eqb x y
  | VStr x, VStr y => String.eqb x y
  | VDate x, VDate y => date_eqb x y
  | VBool x, VBool y => Bool.eqb x y
  | _, _ => false
  end.

(** [db.Column(..., primary_key=, unique=, nullable=)].  A column is
    nullable unless it says [nullable=False] or is the primary key. *)
Record Column := mkColumn
  { col_name : string;
    col_primary_key : bool;
    col_unique : bool;
    col_nullable : bool }.

(** The uniqueness constraints a list of columns declares: one per
    [primary_key=True] or [unique=True] column.  Neither model class has a
    [__table_args__], so there is no multi-column constraint. *)
Definition unique_constraints (cols : list Column) : list (list string) :=
  map (fun c => [col_name c])
      (filter (fun c => col_primary_key c || col_unique c) cols).

Definition not_null_columns (cols : list Column) : list string :=
  map col_name (filter (fun c => negb (col_nullable c)) cols).

Section Constraints.
Variable R : Type.
Variable get : string -> R -> option value.

(** Two rows agree on a set of columns, SQL style: [NULL] equals nothing. *)
Definition agree_on (cols : list string) (r r' : R) : bool :=
  forallb (fun c => match get c r, get c r' with
                    | Some a, Some b => value_eqb a b
                    | _, _ => false
                    end) cols.

(** Inserting [r] into [table] breaks one of the uniqueness constraints. *)
Definition unique_violation (uniques : list (list string))
           (table : list R) (r : R) : bool :=
  existsb (fun cols => existsb (agree_on cols r) table) uniques.

(** [r] has [NULL] in a [NOT NULL] column. *)
Definition null_violation (not_null : list string) (r : R) : bool :=
  existsb (fun c => match get c r with None => true | Some _ => false end)
          not_null.
End Constraints.

(** ** The models *)

Module Usuario.

(** A row of [usuario].  [id] is assigned by the store at insertion.
    [email] is whatever [data.get("email")] gave, [None] when the key is
    absent; [senha_hash] is the string [generate_password_hash]
    returned. *)
Record t := mk
  { id : Z;
    email : option string;
    senha_hash : string;
    nome : option string;
    imagem_url : option string;
    imagem_public_id : option string;
    onboarding_required : bool }.

Definition columns : list Column :=
  [ mkColumn "id" true false false;
    mkColumn "email" false true false;
    mkColumn "senha_hash" false false false;
    mkColumn "nome" false false true;
    mkColumn "imagem_url" false false true;
    mkColumn "imagem_public_id" false false true;
    mkColumn "onboarding_required" false false true ].

Definition get (c : string) (u : t) : option value :=
  if String.eqb c "id" then Some (VInt (id u))
  else if String.eqb c "email" then option_map VStr (email u)
  else if String.eqb c "senha_hash" then Some (VStr (senha_hash u))
  else if String.eqb c "nome" then option_map VStr (nome u)
  else if String.eqb c "imagem_url" then option_map VStr (imagem_url u)
  else if String.eqb c "imagem_public_id"
       then option_map VStr (imagem_public_id u)
  else if String.eqb c "onboarding_required"
       then Some (VBool (onboarding_required u))
  else None.

(** [Usuario(email=email, senha_hash=senha_hash)] once flushed with
    primary key [id]: the column defaults [nome="User"] and
    [onboarding_required=True] apply, the image columns stay [NULL]. *)
Definition new (id : Z) (email : option string) (senha_hash : string) : t :=
  mk id email senha_hash (Some "User"%string) None None true.

End Usuario.

Module Registro.

(** A row of [registro].  [data] is always [date.today()] and
    [id_usuario] always an [int]; the four text attributes are whatever
    [request.json.get] gave, [None] when the key is absent. *)
Record t := mk
  { id : Z;
    data : date;
    humor : option string;
    como_se_sentiu : option string;
    descricao : option string;
    horas_sono : option string;
    id_usuario : Z }.

Definition columns : list Column :=
  [ mkColumn "id" true false false;
    mkColumn "data" false false false;
    mkColumn "humor" false false false;
    mkColumn "como_se_sentiu" false false false;
    mkColumn "descricao" false false true;
    mkColumn "horas_sono" false false false;
    mkColumn "id_usuario" false false false ].

Definition get (c : string) (r : t) : option value :=
  if String.eqb c "id" then Some (VInt (id r))
  else if String.eqb c "data" then Some (VDate (data r))
  else if String.eqb c "humor" then option_map VStr (humor r)
  else if String.eqb c "como_se_sentiu"
       then option_map VStr (como_se_sentiu r)
  else if String.eqb c "descricao" then option_map VStr (descricao r)
  else if String.eqb c "horas_sono" then option_map VStr (horas_sono r)
  else if String.eqb c "id_usuario" then Some (VInt (id_usuario r))
  else None.

End Registro.

(** ** The store *)

(** The two tables, each in rowid order: a new row is appended. *)
Record DB := mkDB
  { usuarios : list Usuario.t;
    registros : list Registro.t }.

Definition empty_db : DB := mkDB [] [].

(** Exceptions that reach Flask unhandled (a 500 response). *)
Inductive Exn :=
| AttributeError
| IntegrityError
| CloudinaryError.

(** An [INTEGER PRIMARY KEY] column of SQLite without [AUTOINCREMENT]: the
    new rowid is one more than the largest rowid in the table, 1 when the
    table is empty. *)
Definition next_rowid (ids : list Z) : Z :=
  (1 + fold_right Z.max 0 ids)%Z.

(** [db.session.add(row); db.session.commit()] on [usuario]: the store
    checks the declared [NOT NULL] and uniqueness constraints. *)
Definition insert_usuario (db : DB) (email : option string)
           (senha_hash : string) : Exn + DB :=
  let u := Usuario.new (next_rowid (map Usuario.id (usuarios db)))
                       email senha_hash in
  if null_violation Usuario.get (not_null_columns Usuario.columns) u
     || unique_violation Usuario.get (unique_constraints Usuario.columns)
                         (usuarios db) u
  then inl IntegrityError
  else inr (mkDB (usuarios db ++ [u]) (registros db)).

(** The row [registrar_dados] builds, with the rowid the store gives it. *)
Definition novo_registro (db : DB) (usuario_id : Z) (data_hoje : date)
           (humor como_se_sentiu descricao horas_sono : option string)
  : Registro.t :=
  Registro.mk (next_rowid (map Registro.id (registros db)))
              data_hoje humor como_se_sentiu descricao horas_sono usuario_id.

(** [db.session.add(row); db.session.commit()] on [registro]. *)
Definition insert_registro (db : DB) (r : Registro.t) : Exn + DB :=
  if null_violation Registro.get (not_null_columns Registro.columns) r
     || unique_violation Registro.get (unique_constraints Registro.columns)
                         (registros db) r
  then inl IntegrityError
  else inr (mkDB (usuarios db) (registros db ++ [r])).

(** [db.session.delete(r)]: [DELETE FROM registro WHERE id = r.id]. *)
Definition session_delete (db : DB) (r : Registro.t) : DB :=
  mkDB (usuarios db)
       (filter (fun x => negb (Z.eqb (Registro.id x) (Registro.id r)))
               (registros db)).

(** Committing a modified [usuario] object:
    [UPDATE usuario SET ... WHERE id = u.id]. *)
Definition update_usuario (db : DB) (u : Usuario.t) : DB :=
  mkDB (map (fun x => if Z.eqb (Usuario.id x) (Usuario.id u) then u else x)
            (usuarios db))
       (registros db).

(** *** Queries *)

Definition option_string_eqb (a b : option string) : bool :=
  match a, b with
  | Some x, Some y => String.eqb x y
  | None, None => true
  | _, _ => false
  end.

(** [Usuario.query.filter_by(email=email).first()]; for [email=None] the
    query compares with [IS NULL]. *)
Definition usuario_by_email (db : DB) (email : option string)
  : option Usuario.t :=
  find (fun u => option_string_eqb (Usuario.email u) email) (usuarios db).

(** [Usuario.query.get(usuario_id)]. *)
Definition usuario_get (db : DB) (usuario_id : Z) : option Usuario.t :=
  find (fun u => Z.eqb (Usuario.id u) usuario_id) (usuarios db).

(** [Registro.query.filter_by(id_usuario=usuario_id)]. *)
Definition registros_de (db : DB) (usuario_id : Z) : list Registro.t :=
  filter (fun r => Z.eqb (Registro.id_usuario r) usuario_id) (registros db).

(** [Registro.query.filter_by(id_usuario=usuario_id, data=d).first()]. *)
Definition registro_do_dia (db : DB) (usuario_id : Z) (d : date)
  : option Registro.t :=
  find (fun r => Z.eqb (Registro.id_usuario r) usuario_id
                 && date_eqb (Registro.data r) d) (registros db).

Section OrderBy.
Variable A : Type.
Variable leb : A -> A -> bool.

(** Puts [x] in a descending list, before the first element that is not
    greater than it. *)
Fixpoint insert_desc (x : A) (l : list A) : list A :=
  match l with
  | [] => [x]
  | y :: l' => if leb y x then x :: y :: l' else y :: insert_desc x l'
  end.

(** [ORDER BY key DESC]: rows with equal keys stay in rowid order (SQL
    leaves their order open; in this program the keys of one account's
    rows are distinct). *)
Definition order_by_desc (l : list A) : list A :=
  fold_right insert_desc [] l.
End OrderBy.

Definition id_leb (a b : Registro.t) : bool :=
  Z.leb (Registro.id a) (Registro.id b).

Definition data_leb (a b : Registro.t) : bool :=
  date_leb (Registro.data a) (Registro.data b).

(** ** Requests and responses *)

(** What the token [create_access_token] signs carries. *)
Record Token := mkToken
  { identity : string;
    expires_delta_days : nat }.

(** An uploaded file ([werkzeug.FileStorage]); it is falsy when its
    filename is empty. *)
Record FileStorage := mkFile
  { filename : string;
    content : string }.

Definition file_truthy (f : option FileStorage) : bool :=
  match f with
  | None => false
  | Some f => negb (String.eqb (filename f) EmptyString)
  end.

(** One element of the list [obter_registros] returns. *)
Record RegistroView := mkView
  { view_data : string;
    view_humor : option string;
    view_como_se_sentiu : option string;
    view_descricao : option string;
    view_horas_sono : option string }.

Definition view (r : Registro.t) : RegistroView :=
  mkView (strftime_Ymd (Registro.data r)) (Registro.humor r)
         (Registro.como_se_sentiu r) (Registro.descricao r)
         (Registro.horas_sono r).

(** The JSON bodies the handlers build. *)
Inductive Json :=
| JMsg (msg : string)
| JLogin (token : Token) (usuario_id : Z) (onboarding_required : bool)
| JRegistros (resultado : list RegistroView)
| JOnboarding (onboarding_required : bool)
| JUsuario (nome : option string) (email : option string)
           (imagem_url : string)
| JImagem (imagem_url public_id : option string)
| JJaRegistrou (ja_registrou : bool).

Inductive Response :=
| Resp (status : nat) (body : Json)
| Unhandled (e : Exn).

(** What [upload_image] does to the outside world, in order. *)
Inductive Effect :=
| Destroy (public_id : string)
| PrintErro
| Upload (imagem : FileStorage).

(** ** The handlers *)

Section Handlers.

(** [werkzeug.security]: [generate_password_hash] draws a random salt,
    given here as its first argument. *)
Variable generate_password_hash : string -> string -> string.
Variable check_password_hash : string -> string -> bool.

(** [POST /register]. *)
Definition register (db : DB) (email senha : option string) (salt : string)
  : DB * Response :=
  match usuario_by_email db email with
  | Some _ =>
      (db, Resp 400
             (JMsg "User already exists. Please try logging in instead."))
  | None =>
      match senha with
      | None => (db, Unhandled AttributeError)
      | Some senha =>
          let senha_hash := generate_password_hash salt senha in
          match insert_usuario db email senha_hash with
          | inl e => (db, Unhandled e)
          | inr db' => (db', Resp 201 (JMsg "Usuário criado com sucesso"))
          end
      end
  end.

(** [POST /login]. *)
Definition login (db : DB) (email senha : option string) : DB * Response :=
  let unauthenticated :=
    (db, Resp 401 (JMsg "Incorrect username or password.")) in
  match usuario_by_email db email with
  | None => unauthenticated
  | Some usuario =>
      match senha with
      | None => (db, Unhandled AttributeError)
      | Some senha =>
          if negb (check_password_hash (Usuario.senha_hash usuario) senha)
          then unauthenticated
          else
            let token := mkToken (Py.str (Usuario.id usuario)) 1 in
            (db, Resp 200 (JLogin token (Usuario.id usuario)
                                  (Usuario.onboarding_required usuario)))
      end
  end.

(** [usuario.nome = nome]. *)
Definition set_nome (u : Usuario.t) (nome : option string) : Usuario.t :=
  Usuario.mk (Usuario.id u) (Usuario.email u) (Usuario.senha_hash u)
             nome (Usuario.imagem_url u) (Usuario.imagem_public_id u)
             (Usuario.onboarding_required u).

(** [usuario.onboarding_required = False]. *)
Definition set_onboarding_done (u : Usuario.t) : Usuario.t :=
  Usuario.mk (Usuario.id u) (Usuario.email u) (Usuario.senha_hash u)
             (Usuario.nome u) (Usuario.imagem_url u)
             (Usuario.imagem_public_id u) false.

(** [usuario.imagem_url = ...; usuario.imagem_public_id = ...]. *)
Definition set_imagem (u : Usuario.t) (secure_url public_id : string)
  : Usuario.t :=
  Usuario.mk (Usuario.id u) (Usuario.email u) (Usuario.senha_hash u)
             (Usuario.nome u) (Some secure_url) (Some public_id)
             (Usuario.onboarding_required u).

(** [POST /onboarding].  With no such account [usuario] is [None] and the
    first attribute assignment raises. *)
Definition onboarding (db : DB) (usuario_id : Z) (nome : option string)
  : DB * Response :=
  match usuario_get db usuario_id with
  | None => (db, Unhandled AttributeError)
  | Some usuario =>
      let usuario :=
        if Py.truthy nome then set_nome usuario nome else usuario in
      let usuario := set_onboarding_done usuario in
      (update_usuario db usuario,
       Resp 200 (JMsg "Onboarding atualizado com sucesso"))
  end.

(** [PUT /update-onboarding]. *)
Definition update_onboarding (db : DB) (usuario_id : Z) : DB * Response :=
  match usuario_get db usuario_id with
  | None => (db, Resp 404 (JMsg "Usuário não encontrado"))
  | Some usuario =>
      (update_usuario db (set_onboarding_done usuario),
       Resp 200 (JMsg "Onboarding marcado como concluído."))
  end.

(** The retention step of [registrar_dados]: the rows of the account,
    newest identifier first; everything after the 11th is deleted. *)
Definition podar (db : DB) (usuario_id : Z) : DB :=
  let registros := order_by_desc id_leb (registros_de db usuario_id) in
  if Nat.ltb 11 (List.length registros)
  then fold_left session_delete (skipn 11 registros) db
  else db.

(** [POST /registro].  [data_hoje] is [date.today()].  The [usuario]
    fetched at the top of the handler is never used. *)
Definition registrar_dados (db : DB) (usuario_id : Z) (data_hoje : date)
           (humor como_se_sentiu descricao horas_sono : option string)
  : DB * Response :=
  match registro_do_dia db usuario_id data_hoje with
  | Some _ => (db, Resp 400 (JMsg "Você já registrou hoje."))
  | None =>
      match insert_registro db
              (novo_registro db usuario_id data_hoje humor como_se_sentiu
                             descricao horas_sono) with
      | inl e => (db, Unhandled e)
      | inr db' =>
          (podar db' usuario_id,
           Resp 201 (JMsg "Registro salvo com sucesso."))
      end
  end.

(** [GET /registros]. *)
Definition obter_registros (db : DB) (usuario_id : Z) : DB * Response :=
  let registros :=
    firstn 11 (order_by_desc data_leb (registros_de db usuario_id)) in
  let resultado := map view registros in
  (db, Resp 200 (JRegistros (rev resultado))).

(** [GET /check-onboarding]. *)
Definition check_onboarding (db : DB) (usuario_id : Z) : DB * Response :=
  match usuario_get db usuario_id with
  | None => (db, Resp 404 (JMsg "Usuário não encontrado"))
  | Some usuario =>
      (db, Resp 200 (JOnboarding (Usuario.onboarding_required usuario)))
  end.

(** [GET /me]. *)
Definition get_usuario (db : DB) (usuario_id : Z) : DB * Response :=
  match usuario_get db usuario_id with
  | None => (db, Resp 404 (JMsg "Usuário não encontrado"))
  | Some usuario =>
      (db, Resp 200
             (JUsuario (Usuario.nome usuario) (Usuario.email usuario)
                       (Py.or_else (Usuario.imagem_url usuario)
                                   "/avatar-placeholder.svg")))
  end.

(** [POST /upload-image].  [destroy_raises] tells whether
    [cloudinary.uploader.destroy] raises, [upload_result] is what
    [cloudinary.uploader.upload] returns ([secure_url], [public_id]) or
    [None] when it raises. *)
Definition upload_image (db : DB) (usuario_id : Z)
           (imagem : option FileStorage) (destroy_raises : bool)
           (upload_result : option (string * string))
  : DB * Response * list Effect :=
  match imagem with
  | Some arquivo =>
      if file_truthy imagem then
        match usuario_get db usuario_id with
        | None => (db, Unhandled AttributeError, [])
        | Some usuario =>
            let antes :=
              match Usuario.imagem_public_id usuario with
              | Some public_id =>
                  if Py.truthy (Some public_id)
                  then if destroy_raises
                       then [Destroy public_id; PrintErro]
                       else [Destroy public_id]
                  else []
              | None => []
              end in
            match upload_result with
            | None =>
                (db, Unhandled CloudinaryError, antes ++ [Upload arquivo])
            | Some (secure_url, public_id) =>
                let usuario := set_imagem usuario secure_url public_id in
                (update_usuario db usuario,
                 Resp 200 (JImagem (Usuario.imagem_url usuario)
                                   (Usuario.imagem_public_id usuario)),
                 antes ++ [Upload arquivo])
            end
        end
      else (db, Resp 400 (JMsg "Nenhum arquivo enviado"), [])
  | None => (db, Resp 400 (JMsg "Nenhum arquivo enviado"), [])
  end.

(** [GET /ja-registrou-hoje].  [hoje] is [date.today()]. *)
Definition ja_registrou_hoje (db : DB) (usuario_id : Z) (hoje : date)
  : DB * Response :=
  let registro := registro_do_dia db usuario_id hoje in
  (db, Resp 200 (JJaRegistrou
                   (match registro with Some _ => true | None => false end))).

(** *** The service as a state machine *)

Inductive Request :=
| ReqRegister (email senha : option string) (salt : string)
| ReqLogin (email senha : option string)
| ReqOnboarding (usuario_id : Z) (nome : option string)
| ReqUpdateOnboarding (usuario_id : Z)
| ReqRegistro (usuario_id : Z) (data_hoje : date)
              (humor como_se_sentiu descricao horas_sono : option string)
| ReqRegistros (usuario_id : Z)
| ReqCheckOnboarding (usuario_id : Z)
| ReqMe (usuario_id : Z)
| ReqUploadImage (usuario_id : Z) (imagem : option FileStorage)
                 (destroy_raises : bool)
                 (upload_result : option (string * string))
| ReqJaRegistrouHoje (usuario_id : Z) (hoje : date).

Definition handle (db : DB) (req : Request) : DB * Response :=
  match req with
  | ReqRegister email senha salt => register db email senha salt
  | ReqLogin email senha => login db email senha
  | ReqOnboarding uid nome => onboarding db uid nome
  | ReqUpdateOnboarding uid => update_onboarding db uid
  | ReqRegistro uid hoje h c d s => registrar_dados db uid hoje h c d s
  | ReqRegistros uid => obter_registros db uid
  | ReqCheckOnboarding uid => check_onboarding db uid
  | ReqMe uid => get_usuario db uid
  | ReqUploadImage uid imagem dr ur =>
      fst (upload_image db uid imagem dr ur)
  | ReqJaRegistrouHoje uid hoje => ja_registrou_hoje db uid hoje
  end.

Definition step (db : DB) (req : Request) : DB := fst (handle db req).

(** The database after serving [reqs] in order, starting from the tables
    [db.create_all()] makes. *)
Definition run (reqs : list Request) : DB := fold_left step reqs empty_db.

Inductive reachable : DB -> Prop :=
| reachable_init : reachable empty_db
| reachable_step db req : reachable db -> reachable (step db req).

End Handlers.

(** * Properties *)

Unset Implicit Arguments.

(** ** Lists, keys and sorting *)

Section ListFacts.
Variables A K : Type.

Lemma existsb_same_elements (f : A -> bool) (l l' : list A) :
  (forall x, In x l <-> In x l') -> existsb f l = existsb f l'.
Proof.
  intros same.
  destruct (existsb f l) eqn:El; destruct (existsb f l') eqn:El'; trivial.
  - apply existsb_exists in El as (x & Hin & Hf).
    assert (existsb f l' = true) as E
        by (apply existsb_exists; exists x; split; [now apply same | trivial]).
    congruence.
  - apply existsb_exists in El' as (x & Hin & Hf).
    assert (existsb f l = true) as E
        by (apply existsb_exists; exists x; split; [now apply same | trivial]).
    congruence.
Qed.

Lemma existsb_pointwise (f g : A -> bool) (l : list A) :
  (forall x, f x = g x) -> existsb f l = existsb g l.
Proof.
  intros E. induction l as [|a l IH]; simpl; trivial. now rewrite E, IH.
Qed.

Lemma filter_comm (f g : A -> bool) (l : list A) :
  filter f (filter g l) = filter g (filter f l).
Proof.
  induction l as [|a l IH]; simpl; trivial.
  destruct (g a) eqn:Eg; destruct (f a) eqn:Ef; simpl;
    rewrite ?Eg, ?Ef, IH; trivial.
Qed.

Lemma filter_length_le (f : A -> bool) (l : list A) :
  List.length (filter f l) <= List.length l.
Proof.
  induction l as [|a l IH]; simpl; trivial.
  destruct (f a); simpl; lia.
Qed.

Lemma NoDup_map_filter (k : A -> K) (p : A -> bool) (l : list A) :
  NoDup (map k l) -> NoDup (map k (filter p l)).
Proof.
  induction l as [|a l IH]; simpl; trivial.
  intros H. apply NoDup_cons_iff in H as [Hnotin Hnd].
  destruct (p a); simpl; auto.
  constructor; auto.
  intros Hin. apply Hnotin.
  apply in_map_iff in Hin as (x & Hk & Hx).
  apply filter_In in Hx as [Hx _].
  apply in_map_iff. now exists x.
Qed.

Lemma NoDup_map_snoc (k : A -> K) (l : list A) (x : A) :
  NoDup (map k l) -> ~ In (k x) (map k l) -> NoDup (map k (l ++ [x])).
Proof.
  intros Hnd Hnotin. rewrite map_app. apply NoDup_app; trivial.
  - simpl. constructor; [intros [] | constructor].
  - intros a Ha [<- | []]. now apply Hnotin.
Qed.

Lemma NoDup_map_inj (k : A -> K) (l : list A) (x y : A) :
  NoDup (map k l) -> In x l -> In y l -> k x = k y -> x = y.
Proof.
  induction l as [|a l IH]; simpl; [intros _ [] |].
  intros H. apply NoDup_cons_iff in H as [Hnotin Hnd].
  intros [-> | Hx] [-> | Hy] E; trivial.
  - exfalso. apply Hnotin. rewrite E. now apply in_map.
  - exfalso. apply Hnotin. rewrite <- E. now apply in_map.
  - now apply IH.
Qed.
End ListFacts.

(** Identifiers in strictly increasing order. *)
Definition ascending (ids : list Z) : Prop := StronglySorted Z.lt ids.

Lemma ascending_NoDup (ids : list Z) : ascending ids -> NoDup ids.
Proof.
  induction 1 as [|i ids Hs IH Hall]; constructor; trivial.
  intros Hin. rewrite Forall_forall in Hall.
  specialize (Hall _ Hin). lia.
Qed.

Lemma ascending_snoc (ids : list Z) (x : Z) :
  ascending ids -> Forall (fun i => (i < x)%Z) ids -> ascending (ids ++ [x]).
Proof.
  induction 1 as [|i ids Hs IH Hall]; simpl; intros Hlt.
  - repeat constructor.
  - inversion_clear Hlt as [|? ? Hi Hrest]. constructor.
    + now apply IH.
    + apply Forall_app. split; trivial. now repeat constructor.
Qed.

Lemma ascending_filter (A : Type) (k : A -> Z) (p : A -> bool) (l : list A) :
  ascending (map k l) -> ascending (map k (filter p l)).
Proof.
  induction l as [|a l IH]; simpl; trivial.
  intros H. inversion_clear H as [|? ? Hs Hall].
  destruct (p a); simpl; [|now apply IH].
  constructor; [now apply IH|].
  rewrite Forall_forall in *. intros i Hin. apply Hall.
  apply in_map_iff in Hin as (x & <- & Hx).
  apply filter_In in Hx as [Hx _]. now apply in_map.
Qed.

Lemma next_rowid_gt (ids : list Z) :
  Forall (fun i => (i < next_rowid ids)%Z) ids.
Proof.
  unfold next_rowid. induction ids as [|i ids IH]; cbn [fold_right];
    constructor.
  - lia.
  - eapply Forall_impl; [|exact IH]. cbv beta. intros; lia.
Qed.

Lemma next_rowid_pos (ids : list Z) : (0 < next_rowid ids)%Z.
Proof.
  unfold next_rowid. induction ids as [|i ids IH]; cbn [fold_right]; lia.
Qed.

Section OrderByFacts.
Variable A : Type.
Variable leb : A -> A -> bool.

Lemma insert_desc_perm (x : A) (l : list A) :
  Permutation (insert_desc leb x l) (x :: l).
Proof.
  induction l as [|y l IH]; simpl; trivial.
  destruct (leb y x); trivial.
  rewrite IH. apply perm_swap.
Qed.

Lemma order_by_desc_perm (l : list A) : Permutation (order_by_desc leb l) l.
Proof.
  induction l as [|x l IH]; simpl; trivial.
  rewrite insert_desc_perm. now constructor.
Qed.

Lemma order_by_desc_length (l : list A) :
  List.length (order_by_desc leb l) = List.length l.
Proof. apply Permutation_length, order_by_desc_perm. Qed.

Lemma insert_desc_smallest (x : A) (l : list A) :
  Forall (fun y => leb y x = false) l -> insert_desc leb x l = l ++ [x].
Proof.
  induction 1 as [|y l Hy Hall IH]; simpl; trivial.
  now rewrite Hy, IH.
Qed.

(** On rows already in strictly increasing key order, [ORDER BY key DESC]
    is the reversal. *)
Lemma order_by_desc_rev (l : list A) :
  StronglySorted (fun a b => leb b a = false) l ->
  order_by_desc leb l = rev l.
Proof.
  induction 1 as [|x l Hs IH Hall]; simpl; trivial.
  rewrite IH. apply insert_desc_smallest.
  rewrite Forall_forall in *. intros y Hy. apply Hall. now apply in_rev.
Qed.

Hypothesis leb_total : forall a b, leb a b = false -> leb b a = true.
Hypothesis leb_trans :
  forall a b c, leb a b = true -> leb b c = true -> leb a c = true.

Lemma insert_desc_sorted (x : A) (l : list A) :
  StronglySorted (fun a b => leb b a = true) l ->
  StronglySorted (fun a b => leb b a = true) (insert_desc leb x l).
Proof.
  induction 1 as [|y l Hs IH Hall]; simpl.
  - repeat constructor.
  - destruct (leb y x) eqn:E.
    + constructor; [now constructor|].
      constructor; trivial.
      eapply Forall_impl; [|exact Hall]. simpl. eauto.
    + constructor; trivial.
      eapply Permutation_Forall;
        [apply Permutation_sym, insert_desc_perm|].
      constructor; auto.
Qed.

Lemma order_by_desc_sorted (l : list A) :
  StronglySorted (fun a b => leb b a = true) (order_by_desc leb l).
Proof.
  induction l as [|x l IH]; simpl; [constructor|].
  now apply insert_desc_sorted.
Qed.
End OrderByFacts.

(** ** What the store's constraints amount to *)

Lemma date_eqb_eq (a b : date) : date_eqb a b = true <-> a = b.
Proof.
  unfold date_eqb. destruct a as [y m d], b as [y' m' d']; simpl.
  rewrite !andb_true_iff, !Nat.eqb_eq. split.
  - intros [[-> ->] ->]. reflexivity.
  - intros E. injection E as -> -> ->. auto.
Qed.

Lemma date_eqb_refl (a : date) : date_eqb a a = true.
Proof. now apply date_eqb_eq. Qed.

Lemma option_string_eqb_eq (a b : option string) :
  option_string_eqb a b = true <-> a = b.
Proof.
  destruct a as [x|], b as [y|]; simpl; try (split; congruence).
  rewrite String.eqb_eq. split; congruence.
Qed.

(** The [nullable=False] text columns of [Registro] all hold a value. *)
Definition campos_obrigatorios (r : Registro.t) : bool :=
  match Registro.humor r, Registro.como_se_sentiu r, Registro.horas_sono r with
  | Some _, Some _, Some _ => true
  | _, _, _ => false
  end.

Lemma registro_null_violation (r : Registro.t) :
  null_violation Registro.get (not_null_columns Registro.columns) r
  = negb (campos_obrigatorios r).
Proof.
  unfold campos_obrigatorios. destruct r as [i d h c ds s u]; cbn.
  destruct h, c, s; reflexivity.
Qed.

(** The only uniqueness constraint on [registro] is its primary key. *)
Lemma registro_unique_violation (t : list Registro.t) (r : Registro.t) :
  unique_violation Registro.get (unique_constraints Registro.columns) t r
  = existsb (fun x => Z.eqb (Registro.id r) (Registro.id x)) t.
Proof.
  cbn. rewrite orb_false_r. apply existsb_pointwise. intros x.
  unfold agree_on; cbn. now rewrite andb_true_r.
Qed.

Lemma fresh_rowid_no_clash (ids : list Z) :
  existsb (fun i => Z.eqb (next_rowid ids) i) ids = false.
Proof.
  destruct (existsb _ ids) eqn:E; trivial.
  apply existsb_exists in E as (i & Hin & Heq).
  pose proof (next_rowid_gt ids) as Hgt. rewrite Forall_forall in Hgt.
  specialize (Hgt _ Hin). lia.
Qed.

Lemma existsb_map (A B : Type) (f : B -> bool) (g : A -> B) (l : list A) :
  existsb f (map g l) = existsb (fun x => f (g x)) l.
Proof. induction l as [|a l IH]; simpl; now rewrite ?IH. Qed.

(** Inserting the row [registrar_dados] builds fails only on a missing
    required field; the store looks at no other row's account or date. *)
Lemma insert_novo_registro (db : DB) (uid : Z) (hoje : date)
      (h c d s : option string) :
  let r := novo_registro db uid hoje h c d s in
  insert_registro db r
  = if campos_obrigatorios r
    then inr (mkDB (usuarios db) (registros db ++ [r]))
    else inl IntegrityError.
Proof.
  intros r. unfold insert_registro.
  rewrite registro_null_violation, registro_unique_violation.
  replace (existsb _ (registros db)) with false.
  - now destruct (campos_obrigatorios r).
  - symmetry.
    rewrite <- (fresh_rowid_no_clash (map Registro.id (registros db))).
    now rewrite existsb_map.
Qed.

Lemma usuario_null_violation (u : Usuario.t) :
  null_violation Usuario.get (not_null_columns Usuario.columns) u
  = match Usuario.email u with None => true | Some _ => false end.
Proof.
  destruct u as [i e h n iu ip o]; cbn. destruct e; reflexivity.
Qed.

(** [usuario] has its primary key and [unique=True] on [email]. *)
Lemma usuario_unique_violation (t : list Usuario.t) (u : Usuario.t) :
  unique_violation Usuario.get (unique_constraints Usuario.columns) t u
  = existsb (fun x => Z.eqb (Usuario.id u) (Usuario.id x)) t
    || existsb (fun x => match Usuario.email u, Usuario.email x with
                         | Some a, Some b => String.eqb a b
                         | _, _ => false
                         end) t.
Proof.
  cbn. rewrite orb_false_r. f_equal; apply existsb_pointwise; intros x;
    unfold agree_on; cbn; rewrite andb_true_r; trivial.
  now destruct (Usuario.email u), (Usuario.email x).
Qed.

(** After the handler's own lookup found no account with this email, the
    insertion fails only on a missing email. *)
Lemma insert_usuario_fresh (db : DB) (email : option string) (h : string) :
  usuario_by_email db email = None ->
  insert_usuario db email h
  = match email with
    | None => inl IntegrityError
    | Some _ =>
        inr (mkDB (usuarios db
                   ++ [Usuario.new (next_rowid (map Usuario.id (usuarios db)))
                                   email h])
                  (registros db))
    end.
Proof.
  intros Hnone. unfold insert_usuario.
  rewrite usuario_null_violation, usuario_unique_violation.
  destruct email as [e|]; cbn [Usuario.new Usuario.email Usuario.id orb];
    trivial.
  replace (existsb _ (usuarios db)) with false.
  - replace (existsb _ (usuarios db)) with false; trivial.
    symmetry. destruct (existsb _ (usuarios db)) eqn:E; trivial.
    apply existsb_exists in E as (x & Hin & Hx).
    pose proof (find_none _ _ Hnone x Hin) as Hne. cbv beta in Hne.
    destruct (Usuario.email x) as [b|]; [|discriminate].
    simpl in Hne. rewrite String.eqb_sym in Hne. congruence.
  - symmetry.
    rewrite <- (fresh_rowid_no_clash (map Usuario.id (usuarios db))).
    now rewrite existsb_map.
Qed.

(** ** The retention step *)

Lemma StronglySorted_map (A B : Type) (R : B -> B -> Prop) (k : A -> B)
      (l : list A) :
  StronglySorted R (map k l) -> StronglySorted (fun a b => R (k a) (k b)) l.
Proof.
  induction l as [|a l IH]; simpl; intros H; [constructor|].
  inversion_clear H as [|? ? Hs Hall]. constructor; auto.
  rewrite Forall_forall in *. intros x Hx. apply Hall. now apply in_map.
Qed.

Lemma In_firstn (A : Type) (n : nat) (l : list A) (x : A) :
  In x (firstn n l) -> In x l.
Proof.
  intros H. rewrite <- (firstn_skipn n l). apply in_or_app. now left.
Qed.

Lemma In_skipn (A : Type) (n : nat) (l : list A) (x : A) :
  In x (skipn n l) -> In x l.
Proof.
  intros H. rewrite <- (firstn_skipn n l). apply in_or_app. now right.
Qed.

Lemma fold_session_delete (D : list Registro.t) (db : DB) :
  fold_left session_delete D db
  = mkDB (usuarios db)
         (filter (fun x => negb (existsb (fun r => Z.eqb (Registro.id x)
                                                         (Registro.id r)) D))
                 (registros db)).
Proof.
  revert db. induction D as [|a D IH]; intros db; simpl.
  - rewrite filter_true. now destruct db.
  - rewrite IH. unfold session_delete; simpl. f_equal.
    induction (registros db) as [|x l IHl]; simpl; trivial.
    destruct (Z.eqb (Registro.id x) (Registro.id a)); simpl; trivial.
    rewrite IHl. reflexivity.
Qed.

(** The rows of an account that the retention step removes: all but its
    last 11, in rowid order. *)
Definition excedentes (db : DB) (uid : Z) : list Registro.t :=
  let l := registros_de db uid in firstn (List.length l - 11) l.

Definition fica (D : list Registro.t) (x : Registro.t) : bool :=
  negb (existsb (fun r => Z.eqb (Registro.id x) (Registro.id r)) D).

Lemma registros_de_ascending (db : DB) (uid : Z) :
  ascending (map Registro.id (registros db)) ->
  ascending (map Registro.id (registros_de db uid)).
Proof. apply ascending_filter. Qed.

Lemma podar_registros (db : DB) (uid : Z) :
  ascending (map Registro.id (registros db)) ->
  registros (podar db uid) = filter (fica (excedentes db uid)) (registros db).
Proof.
  intros Hasc. unfold podar, excedentes.
  set (l := registros_de db uid).
  assert (order_by_desc id_leb l = rev l) as ->.
  { apply order_by_desc_rev.
    pose proof (registros_de_ascending db uid Hasc) as Hl.
    apply StronglySorted_map in Hl. fold l in Hl.
    eapply StronglySorted_ind with (P := fun l => StronglySorted _ l);
      [constructor | | exact Hl].
    intros a l0 _ IH Hall. constructor; trivial.
    eapply Forall_impl; [|exact Hall]. unfold id_leb. cbv beta.
    intros b Hlt. apply Z.leb_gt. exact Hlt. }
  rewrite length_rev.
  destruct (Nat.ltb 11 (List.length l)) eqn:E.
  - rewrite fold_session_delete. cbn [registros].
    apply filter_ext. intros x. unfold fica. f_equal.
    apply existsb_same_elements. intros r.
    rewrite skipn_rev. symmetry. apply in_rev.
  - apply Nat.ltb_ge in E.
    replace (List.length l - 11) with 0 by lia. cbn [firstn].
    unfold fica. cbn [existsb negb]. now rewrite filter_true.
Qed.

Lemma podar_usuarios (db : DB) (uid : Z) :
  usuarios (podar db uid) = usuarios db.
Proof.
  unfold podar. destruct (Nat.ltb _ _); trivial.
  now rewrite fold_session_delete.
Qed.

Lemma filter_fica_firstn (l : list Registro.t) (k : nat) :
  ascending (map Registro.id l) -> filter (fica (firstn k l)) l = skipn k l.
Proof.
  revert k. induction l as [|a l IH]; intros k Hasc.
  - now destruct k.
  - destruct k as [|k].
    + cbn [firstn skipn]. unfold fica. cbn [existsb negb].
      now rewrite filter_true.
    + inversion_clear Hasc as [|? ? Hs Hall].
      cbn [firstn skipn filter]. unfold fica at 1. cbn [existsb].
      rewrite Z.eqb_refl. cbn [orb negb].
      rewrite <- (IH k Hs). apply filter_ext_in. intros x Hx.
      unfold fica. cbn [existsb].
      rewrite Forall_forall in Hall.
      assert (Registro.id a < Registro.id x)%Z as Hlt
          by (apply Hall; now apply in_map).
      replace (Z.eqb (Registro.id x) (Registro.id a)) with false; trivial.
      symmetry. apply Z.eqb_neq. lia.
Qed.

(** After the retention step the account keeps its last 11 rows. *)
Lemma registros_de_podar (db : DB) (uid : Z) :
  ascending (map Registro.id (registros db)) ->
  registros_de (podar db uid) uid
  = let l := registros_de db uid in skipn (List.length l - 11) l.
Proof.
  intros Hasc. cbv zeta. unfold registros_de at 1.
  rewrite (podar_registros db uid Hasc), filter_comm.
  apply filter_fica_firstn. now apply registros_de_ascending.
Qed.

(** The rows of every other account are untouched. *)
Lemma registros_de_podar_other (db : DB) (uid uid' : Z) :
  ascending (map Registro.id (registros db)) ->
  uid' <> uid ->
  registros_de (podar db uid) uid' = registros_de db uid'.
Proof.
  intros Hasc Hne. unfold registros_de at 1.
  rewrite (podar_registros db uid Hasc), filter_comm.
  apply forallb_filter_id, forallb_forall. intros x Hx.
  apply filter_In in Hx as [Hx Hu]. apply Z.eqb_eq in Hu.
  unfold fica. apply negb_true_iff.
  destruct (existsb _ (excedentes db uid)) eqn:E; trivial.
  apply existsb_exists in E as (r & Hr & Heq). apply Z.eqb_eq in Heq.
  unfold excedentes in Hr. apply In_firstn in Hr.
  apply filter_In in Hr as [Hr Hur]. apply Z.eqb_eq in Hur.
  assert (x = r) as ->
      by (eapply NoDup_map_inj; eauto using ascending_NoDup).
  congruence.
Qed.

(** ** Accounts: lookups and updates *)

Lemma usuario_get_In (db : DB) (uid : Z) (u : Usuario.t) :
  usuario_get db uid = Some u -> In u (usuarios db) /\ Usuario.id u = uid.
Proof.
  intros H. apply find_some in H as [Hin Heq]. split; trivial.
  now apply Z.eqb_eq.
Qed.

Lemma usuario_get_update_other (l : list Usuario.t) (uid' : Z)
      (u' : Usuario.t) :
  uid' <> Usuario.id u' ->
  find (fun v => Z.eqb (Usuario.id v) uid')
       (map (fun x => if Z.eqb (Usuario.id x) (Usuario.id u') then u' else x)
            l)
  = find (fun v => Z.eqb (Usuario.id v) uid') l.
Proof.
  intros Hne. induction l as [|x l IH]; cbn [map find]; trivial.
  destruct (Z.eqb_spec (Usuario.id x) (Usuario.id u')) as [E|E].
  - destruct (Z.eqb_spec (Usuario.id u') uid') as [E'|E']; [congruence|].
    destruct (Z.eqb_spec (Usuario.id x) uid') as [E''|E'']; [congruence|].
    exact IH.
  - destruct (Z.eqb (Usuario.id x) uid'); trivial.
Qed.

(** Looking an account up after another one (or itself) was rewritten. *)
Lemma usuario_get_update (db : DB) (uid uid' : Z) (u u' : Usuario.t) :
  usuario_get db uid = Some u ->
  Usuario.id u' = Usuario.id u ->
  usuario_get (update_usuario db u') uid'
  = if Z.eqb uid' uid then Some u' else usuario_get db uid'.
Proof.
  intros Hget Hid.
  destruct (usuario_get_In _ _ _ Hget) as [_ Hu].
  destruct (Z.eqb_spec uid' uid) as [->|Hne];
    [|apply usuario_get_update_other; congruence].
  revert Hget. unfold usuario_get, update_usuario; cbn [usuarios].
  induction (usuarios db) as [|x l IH]; cbn [map find]; [discriminate|].
  destruct (Z.eqb_spec (Usuario.id x) uid) as [E|E].
  - intros _.
    replace (Z.eqb (Usuario.id x) (Usuario.id u')) with true
      by (symmetry; apply Z.eqb_eq; congruence).
    replace (Z.eqb (Usuario.id u') uid) with true
      by (symmetry; apply Z.eqb_eq; congruence).
    reflexivity.
  - intros Hget.
    replace (Z.eqb (Usuario.id x) (Usuario.id u')) with false
      by (symmetry; apply Z.eqb_neq; congruence).
    replace (Z.eqb (Usuario.id x) uid) with false
      by (symmetry; now apply Z.eqb_neq).
    now apply IH.
Qed.

(** Rewriting an account keeps every row's identifier, and, when
    identifiers are distinct, every row's email and password hash. *)
Lemma update_usuario_ids (db : DB) (u' : Usuario.t) :
  map Usuario.id (usuarios (update_usuario db u'))
  = map Usuario.id (usuarios db).
Proof.
  unfold update_usuario; cbn [usuarios]. rewrite map_map.
  apply map_ext. intros x.
  destruct (Z.eqb_spec (Usuario.id x) (Usuario.id u')); congruence.
Qed.

Lemma update_usuario_column (B : Type) (col : Usuario.t -> B) (db : DB)
      (uid : Z) (u u' : Usuario.t) :
  NoDup (map Usuario.id (usuarios db)) ->
  usuario_get db uid = Some u ->
  Usuario.id u' = Usuario.id u ->
  col u' = col u ->
  map col (usuarios (update_usuario db u')) = map col (usuarios db).
Proof.
  intros Hnd Hget Hid Hcol.
  destruct (usuario_get_In _ _ _ Hget) as [Hin _].
  unfold update_usuario; cbn [usuarios]. rewrite map_map.
  apply map_ext_in. intros x Hx.
  destruct (Z.eqb_spec (Usuario.id x) (Usuario.id u')) as [E|E]; trivial.
  assert (x = u) as -> by (eapply NoDup_map_inj; eauto; congruence).
  exact Hcol.
Qed.

(** ** Invariants of the reachable states *)

Definition dia (r : Registro.t) : Z * date :=
  (Registro.id_usuario r, Registro.data r).

Record Inv_usuarios (db : DB) : Prop := mkInvU
  { usuario_ids_ascending : ascending (map Usuario.id (usuarios db));
    emails_distinct : NoDup (map Usuario.email (usuarios db));
    emails_not_null : ~ In None (map Usuario.email (usuarios db)) }.

Record Inv_registros (db : DB) : Prop := mkInvR
  { registro_ids_ascending : ascending (map Registro.id (registros db));
    um_por_dia : NoDup (map dia (registros db));
    no_maximo_11 : forall uid, List.length (registros_de db uid) <= 11 }.

Definition Inv (db : DB) : Prop := Inv_usuarios db /\ Inv_registros db.

Lemma Inv_empty : Inv empty_db.
Proof.
  split; constructor; cbn.
  - constructor.
  - constructor.
  - intros [].
  - constructor.
  - constructor.
  - intros _. apply Nat.le_0_l.
Qed.

Lemma Inv_registros_same (db db' : DB) :
  registros db' = registros db -> Inv_registros db -> Inv_registros db'.
Proof.
  intros E [H1 H2 H3]. constructor; unfold registros_de in *;
    rewrite E; trivial.
Qed.

Lemma Inv_usuarios_same (db db' : DB) :
  usuarios db' = usuarios db -> Inv_usuarios db -> Inv_usuarios db'.
Proof.
  intros E [H1 H2 H3]. constructor; rewrite E; trivial.
Qed.

Lemma Inv_update_usuario (db : DB) (uid : Z) (u u' : Usuario.t) :
  usuario_get db uid = Some u ->
  Usuario.id u' = Usuario.id u ->
  Usuario.email u' = Usuario.email u ->
  Inv db -> Inv (update_usuario db u').
Proof.
  intros Hget Hid Hemail [[H1 H2 H3] HR]. split.
  - pose proof (ascending_NoDup _ H1) as Hnd.
    constructor.
    + now rewrite update_usuario_ids.
    + now rewrite (update_usuario_column _ Usuario.email db uid u u').
    + now rewrite (update_usuario_column _ Usuario.email db uid u u').
  - now apply (Inv_registros_same db).
Qed.

Lemma registro_do_dia_none (db : DB) (uid : Z) (hoje : date) :
  registro_do_dia db uid hoje = None ->
  ~ In (uid, hoje) (map dia (registros db)).
Proof.
  intros Hnone Hin. apply in_map_iff in Hin as (x & Hx & Hin).
  pose proof (find_none _ _ Hnone x Hin) as Hf. cbv beta in Hf.
  unfold dia in Hx. injection Hx as Hu Hd.
  rewrite Hu, Hd, Z.eqb_refl, date_eqb_refl in Hf. discriminate.
Qed.

Lemma registros_de_snoc (us : list Usuario.t) (t : list Registro.t)
      (r : Registro.t) (uid : Z) :
  registros_de (mkDB us (t ++ [r])) uid
  = registros_de (mkDB us t) uid
    ++ (if Z.eqb (Registro.id_usuario r) uid then [r] else []).
Proof.
  unfold registros_de; cbn [registros]. rewrite filter_app. f_equal.
Qed.

Lemma registros_de_usuarios (us us' : list Usuario.t) (t : list Registro.t)
      (uid : Z) :
  registros_de (mkDB us t) uid = registros_de (mkDB us' t) uid.
Proof. reflexivity. Qed.

(** The database right after [registrar_dados] has added its row. *)
Definition com_novo (db : DB) (r : Registro.t) : DB :=
  mkDB (usuarios db) (registros db ++ [r]).

Lemma com_novo_ascending (db : DB) (uid : Z) (hoje : date)
      (h c d s : option string) :
  ascending (map Registro.id (registros db)) ->
  ascending (map Registro.id
                 (registros (com_novo db (novo_registro db uid hoje h c d s)))).
Proof.
  intros Hasc. cbn [com_novo registros]. rewrite map_app.
  apply ascending_snoc; trivial. apply next_rowid_gt.
Qed.

Lemma Inv_registrar (db : DB) (uid : Z) (hoje : date)
      (h c d s : option string) :
  registro_do_dia db uid hoje = None ->
  Inv db ->
  Inv (podar (com_novo db (novo_registro db uid hoje h c d s)) uid).
Proof.
  intros Hnone [HU [H1 H2 H3]].
  set (r := novo_registro db uid hoje h c d s).
  pose proof (com_novo_ascending db uid hoje h c d s H1) as Hasc.
  fold r in Hasc. split.
  - apply (Inv_usuarios_same db); trivial.
    exact (podar_usuarios (com_novo db r) uid).
  - constructor.
    + rewrite (podar_registros _ _ Hasc). now apply ascending_filter.
    + rewrite (podar_registros _ _ Hasc). apply NoDup_map_filter.
      cbn [com_novo registros]. apply NoDup_map_snoc; trivial.
      now apply registro_do_dia_none.
    + intros uid'. destruct (Z.eq_dec uid' uid) as [->|Hne].
      * rewrite (registros_de_podar _ _ Hasc). cbv zeta.
        rewrite length_skipn. lia.
      * rewrite (registros_de_podar_other _ _ _ Hasc Hne).
        unfold com_novo. rewrite registros_de_snoc.
        replace (Z.eqb (Registro.id_usuario r) uid') with false
          by (symmetry; apply Z.eqb_neq; cbn; congruence).
        rewrite app_nil_r. destruct db; apply H3.
Qed.

Section Reachability.
Variable generate_password_hash : string -> string -> string.
Variable check_password_hash : string -> string -> bool.

Local Abbreviation step :=
  (step generate_password_hash check_password_hash).
Local Abbreviation run :=
  (run generate_password_hash check_password_hash).
Local Abbreviation reachable :=
  (reachable generate_password_hash check_password_hash).

Lemma Inv_register (db : DB) (email senha : option string) (salt : string) :
  Inv db -> Inv (fst (register generate_password_hash db email senha salt)).
Proof.
  intros HI. unfold register.
  destruct (usuario_by_email db email) eqn:Hby; trivial.
  destruct senha as [pw|]; trivial.
  rewrite (insert_usuario_fresh db email _ Hby).
  destruct email as [e|]; trivial. cbn [fst].
  destruct HI as [[H1 H2 H3] HR]. split.
  - constructor; cbn [usuarios].
    + rewrite map_app. apply ascending_snoc; trivial. apply next_rowid_gt.
    + apply NoDup_map_snoc; trivial. cbn [Usuario.new Usuario.email].
      intros Hin. apply in_map_iff in Hin as (x & Hx & Hin).
      pose proof (find_none _ _ Hby x Hin) as Hf. cbv beta in Hf.
      rewrite Hx in Hf. simpl in Hf. rewrite String.eqb_refl in Hf.
      discriminate.
    + rewrite map_app. intros Hin. apply in_app_or in Hin as [Hin|Hin];
        [now apply H3|].
      destruct Hin as [Hin|[]]. discriminate.
  - now apply (Inv_registros_same db).
Qed.

Lemma Inv_step (db : DB) (req : Request) : Inv db -> Inv (step db req).
Proof.
  intros HI. unfold step.
  destruct req; cbn [handle].
  - now apply Inv_register.
  - unfold login. destruct (usuario_by_email db email); trivial.
    destruct senha; trivial. now destruct (negb _).
  - unfold onboarding. destruct (usuario_get db usuario_id) eqn:Hget;
      trivial. cbn [fst].
    apply (Inv_update_usuario db usuario_id t); trivial;
      destruct (Py.truthy nome); reflexivity.
  - unfold update_onboarding.
    destruct (usuario_get db usuario_id) eqn:Hget; trivial. cbn [fst].
    now apply (Inv_update_usuario db usuario_id t).
  - unfold registrar_dados.
    destruct (registro_do_dia db usuario_id data_hoje) eqn:Hdia; trivial.
    rewrite insert_novo_registro.
    destruct (campos_obrigatorios _); trivial. cbn [fst].
    now apply Inv_registrar.
  - trivial.
  - unfold check_onboarding. now destruct (usuario_get db usuario_id).
  - unfold get_usuario. now destruct (usuario_get db usuario_id).
  - unfold upload_image. destruct imagem as [f|]; trivial.
    destruct (file_truthy (Some f)); trivial.
    destruct (usuario_get db usuario_id) eqn:Hget; trivial.
    destruct upload_result as [[url pid]|]; trivial. cbn [fst].
    now apply (Inv_update_usuario db usuario_id t).
  - trivial.
Qed.

Lemma reachable_Inv (db : DB) : reachable db -> Inv db.
Proof.
  induction 1 as [|db req _ IH]; [apply Inv_empty | now apply Inv_step].
Qed.

Lemma reachable_fold (reqs : list Request) (db : DB) :
  reachable db -> reachable (fold_left step reqs db).
Proof.
  revert db. induction reqs as [|req reqs IH]; intros db H; simpl; trivial.
  apply IH. now constructor.
Qed.

Lemma reachable_run (reqs : list Request) : reachable (run reqs).
Proof. apply reachable_fold. constructor. Qed.

End Reachability.

(** ** Recording an entry *)

Definition ja_existe (db : DB) (uid : Z) (hoje : date) : Prop :=
  exists r, In r (registros db)
            /\ Registro.id_usuario r = uid /\ Registro.data r = hoje.

Lemma registro_do_dia_some_iff (db : DB) (uid : Z) (hoje : date) :
  (exists r, registro_do_dia db uid hoje = Some r) <-> ja_existe db uid hoje.
Proof.
  split.
  - intros (r & Hr). apply find_some in Hr as [Hin Hf].
    apply andb_true_iff in Hf as [Hu Hd].
    exists r. repeat split; trivial;
      [now apply Z.eqb_eq | now apply date_eqb_eq].
  - intros (r & Hin & Hu & Hd).
    destruct (registro_do_dia db uid hoje) as [x|] eqn:E; [now exists x|].
    pose proof (find_none _ _ E r Hin) as Hf. cbv beta in Hf.
    rewrite Hu, Hd, Z.eqb_refl, date_eqb_refl in Hf. discriminate.
Qed.

(** The three ways [registrar_dados] ends. *)
Lemma registrar_dados_cases (db : DB) (uid : Z) (hoje : date)
      (h c d s : option string) :
  registrar_dados db uid hoje h c d s
  = match registro_do_dia db uid hoje with
    | Some _ => (db, Resp 400 (JMsg "Você já registrou hoje."))
    | None =>
        let r := novo_registro db uid hoje h c d s in
        if campos_obrigatorios r
        then (podar (com_novo db r) uid,
              Resp 201 (JMsg "Registro salvo com sucesso."))
        else (db, Unhandled IntegrityError)
    end.
Proof.
  unfold registrar_dados.
  destruct (registro_do_dia db uid hoje); trivial.
  rewrite insert_novo_registro. cbv zeta.
  now destruct (campos_obrigatorios _).
Qed.

(** A body without [humor], [como_se_sentiu] or [horas_sono] gets past the
    existence check and then breaks the [nullable=False] of its column:
    the commit raises and nothing is stored. *)
Lemma registrar_dados_missing_field (db : DB) (uid : Z) (hoje : date)
      (h c d s : option string) :
  registro_do_dia db uid hoje = None ->
  h = None \/ c = None \/ s = None ->
  registrar_dados db uid hoje h c d s = (db, Unhandled IntegrityError).
Proof.
  intros Hnone Hmissing. rewrite registrar_dados_cases, Hnone. cbv zeta.
  unfold campos_obrigatorios; cbn.
  destruct h, c, s; trivial.
  destruct Hmissing as [H|[H|H]]; discriminate.
Qed.

Lemma registros_de_com_novo (db : DB) (uid : Z) (hoje : date)
      (h c d s : option string) :
  registros_de (com_novo db (novo_registro db uid hoje h c d s)) uid
  = registros_de db uid ++ [novo_registro db uid hoje h c d s].
Proof.
  unfold com_novo. rewrite registros_de_snoc.
  cbn [novo_registro Registro.id_usuario]. rewrite Z.eqb_refl.
  now destruct db.
Qed.

Lemma ascending_cut (l : list Registro.t) (k : nat) (x y : Registro.t) :
  ascending (map Registro.id l) ->
  In x (firstn k l) -> In y (skipn k l) ->
  (Registro.id x < Registro.id y)%Z.
Proof.
  revert k. induction l as [|a l IH]; intros k Hasc Hx Hy.
  - destruct k; destruct Hx.
  - destruct k as [|k]; [destruct Hx|].
    inversion_clear Hasc as [|? ? Hs Hall].
    cbn [firstn skipn] in Hx, Hy. destruct Hx as [<-|Hx].
    + rewrite Forall_forall in Hall. apply Hall.
      apply in_map. eapply In_skipn; eauto.
    + eapply IH; eauto.
Qed.

Lemma NoDup_cut (A : Type) (l : list A) (k : nat) (x : A) :
  NoDup l -> In x (firstn k l) -> ~ In x (skipn k l).
Proof.
  intros Hnd Hx Hy. rewrite <- (firstn_skipn k l) in Hnd.
  revert Hnd Hx Hy. generalize (firstn k l) (skipn k l).
  intros l1 l2. induction l1 as [|a l1 IH]; cbn; [tauto|].
  intros Hnd [<-|Hx] Hy.
  - apply NoDup_cons_iff in Hnd as [Hn _]. apply Hn, in_or_app. now right.
  - apply NoDup_cons_iff in Hnd as [_ Hnd]. now apply IH.
Qed.

Section Journal.
Variable generate_password_hash : string -> string -> string.
Variable check_password_hash : string -> string -> bool.

Local Abbreviation reachable :=
  (reachable generate_password_hash check_password_hash).

(** C1.  In every reachable state, whatever way a [registrar_dados] call
    ends, the account is left with at most 11 entries.  When the call
    stores its entry, the account's entries of before plus the new one,
    taken in insertion order, have strictly increasing identifiers; the
    account keeps exactly the last 11 of them (all of them when there are
    no more than 11) and every earlier one is gone from the table, so each
    deleted entry has a smaller identifier than each survivor.  Dates play
    no part in the selection. *)
Theorem registrar_dados_retention (db : DB) (uid : Z) (hoje : date)
        (h c d s : option string) :
  reachable db ->
  let db' := fst (registrar_dados db uid hoje h c d s) in
  let resposta := snd (registrar_dados db uid hoje h c d s) in
  let todos := registros_de db uid ++ [novo_registro db uid hoje h c d s] in
  let n := List.length todos in
  List.length (registros_de db' uid) <= 11
  /\ (resposta = Resp 201 (JMsg "Registro salvo com sucesso.") ->
      ascending (map Registro.id todos)
      /\ registros_de db' uid = skipn (n - 11) todos
      /\ (11 < n -> List.length (registros_de db' uid) = 11)
      /\ (forall x, In x (firstn (n - 11) todos) -> ~ In x (registros db'))
      /\ (forall x y, In x (firstn (n - 11) todos) ->
                      In y (registros_de db' uid) ->
                      (Registro.id x < Registro.id y)%Z)).
Proof.
  intros Hreach. apply reachable_Inv in Hreach as [HU [H1 H2 H3]].
  cbv zeta. rewrite registrar_dados_cases.
  destruct (registro_do_dia db uid hoje) eqn:Hdia; cbn [fst snd].
  { split; [apply H3 | discriminate]. }
  cbv zeta. set (r := novo_registro db uid hoje h c d s).
  destruct (campos_obrigatorios r); cbn [fst snd].
  2: { split; [apply H3 | discriminate]. }
  pose proof (com_novo_ascending db uid hoje h c d s H1) as Hasc. fold r in Hasc.
  pose proof (registros_de_podar _ uid Hasc) as Hpod. cbv zeta in Hpod.
  unfold r in Hpod at 2 3. rewrite registros_de_com_novo in Hpod. fold r in Hpod.
  pose proof (registros_de_ascending _ uid Hasc) as Htodos.
  unfold r in Htodos at 1. rewrite registros_de_com_novo in Htodos.
  fold r in Htodos.
  rewrite Hpod. split; [rewrite length_skipn; lia|].
  intros _. repeat split; trivial.
  - intros Hgt. rewrite length_skipn. lia.
  - intros x Hx Hin.
    assert (In x (registros_de (podar (com_novo db r) uid) uid)) as Hin'.
    { apply filter_In. split; trivial.
      apply In_firstn, in_app_or in Hx as [Hx|[<-|[]]].
      - now apply filter_In in Hx.
      - apply Z.eqb_refl. }
    rewrite Hpod in Hin'.
    apply (NoDup_cut _ _ _ _ (NoDup_map_inv _ _ (ascending_NoDup _ Htodos))
                     Hx Hin').
  - intros x y Hx Hy. exact (ascending_cut _ _ _ _ Htodos Hx Hy).
Qed.

Lemma In_last_skipn (A : Type) (l : list A) (x : A) (k : nat) :
  k <= List.length l -> In x (skipn k (l ++ [x])).
Proof.
  intros Hk. rewrite skipn_app. apply in_or_app. right.
  replace (k - List.length l) with 0 by lia. now left.
Qed.

Lemma novo_registro_fresh (db : DB) (uid : Z) (hoje : date)
      (h c d s : option string) :
  ~ In (novo_registro db uid hoje h c d s) (registros db).
Proof.
  intros Hin. apply (in_map Registro.id) in Hin.
  pose proof (next_rowid_gt (map Registro.id (registros db))) as Hgt.
  rewrite Forall_forall in Hgt. specialize (Hgt _ Hin).
  cbn [novo_registro Registro.id] in Hgt. lia.
Qed.

(** C4.  In every reachable state, [registrar_dados] answers with the
    conflict response exactly when the table already holds an entry of the
    account dated today, whatever the submitted fields are (present or
    not), and then stores nothing.  Otherwise, given a mood, a feeling and
    sleep hours (notes are optional), it answers 201 and the table gains
    one row for (account, today) that carries exactly the submitted
    values; it is the account's entry of the day. *)
Theorem registrar_dados_conflict_or_create (db : DB) (uid : Z) (hoje : date)
        (humor como_se_sentiu horas_sono : string)
        (descricao : option string) :
  reachable db ->
  (forall h c d s,
      snd (registrar_dados db uid hoje h c d s)
      = Resp 400 (JMsg "Você já registrou hoje.")
      <-> ja_existe db uid hoje)
  /\ (forall h c d s,
         ja_existe db uid hoje ->
         fst (registrar_dados db uid hoje h c d s) = db)
  /\ (~ ja_existe db uid hoje ->
      let r := Registro.mk (next_rowid (map Registro.id (registros db)))
                           hoje (Some humor) (Some como_se_sentiu)
                           descricao (Some horas_sono) uid in
      let out := registrar_dados db uid hoje (Some humor)
                                 (Some como_se_sentiu) descricao
                                 (Some horas_sono) in
      snd out = Resp 201 (JMsg "Registro salvo com sucesso.")
      /\ In r (registros (fst out))
      /\ ~ In r (registros db)
      /\ registro_do_dia (fst out) uid hoje = Some r).
Proof.
  intros Hreach. apply reachable_Inv in Hreach as HI.
  split; [|split].
  - intros h c d s. rewrite registrar_dados_cases.
    rewrite <- registro_do_dia_some_iff.
    destruct (registro_do_dia db uid hoje) as [x|]; cbn [snd].
    + split; trivial. intros _. now exists x.
    + cbv zeta. destruct (campos_obrigatorios _); cbn [snd];
        (split; [discriminate | intros (x & Hx); discriminate]).
  - intros h c d s Hex. apply registro_do_dia_some_iff in Hex as (x & Hx).
    rewrite registrar_dados_cases, Hx. reflexivity.
  - intros Hnot. cbv zeta. rewrite registrar_dados_cases.
    destruct (registro_do_dia db uid hoje) as [x|] eqn:Hdia.
    { exfalso. apply Hnot, registro_do_dia_some_iff. now exists x. }
    cbv zeta. cbn [campos_obrigatorios novo_registro Registro.humor
                   Registro.como_se_sentiu Registro.horas_sono fst snd].
    change (Registro.mk _ hoje _ _ _ _ uid)
      with (novo_registro db uid hoje (Some humor) (Some como_se_sentiu)
                          descricao (Some horas_sono)).
    set (r := novo_registro _ _ _ _ _ _ _).
    pose proof (Inv_registrar db uid hoje (Some humor) (Some como_se_sentiu)
                              descricao (Some horas_sono) Hdia HI)
      as [_ [_ Hdias _]].
    fold r in Hdias.
    destruct HI as [_ [H1 _ _]].
    pose proof (com_novo_ascending db uid hoje (Some humor)
                  (Some como_se_sentiu) descricao (Some horas_sono) H1)
      as Hasc.
    fold r in Hasc.
    pose proof (registros_de_podar _ uid Hasc) as Hpod. cbv zeta in Hpod.
    unfold r in Hpod at 2 3. rewrite registros_de_com_novo in Hpod.
    fold r in Hpod.
    assert (In r (registros (podar (com_novo db r) uid))) as Hin.
    { assert (In r (registros_de (podar (com_novo db r) uid) uid)) as Hin
          by (rewrite Hpod; apply In_last_skipn; rewrite length_app; cbn; lia).
      now apply filter_In in Hin. }
    repeat split; trivial.
    + apply novo_registro_fresh.
    + destruct (registro_do_dia (podar (com_novo db r) uid) uid hoje)
        as [x|] eqn:E.
      * apply find_some in E as [Hx Hf].
        apply andb_true_iff in Hf as [Hu Hd].
        apply Z.eqb_eq in Hu. apply date_eqb_eq in Hd.
        f_equal. apply (NoDup_map_inj _ _ dia _ x r Hdias Hx Hin).
        unfold dia. now rewrite Hu, Hd.
      * pose proof (find_none _ _ E r Hin) as Hf. cbv beta in Hf.
        cbn in Hf. rewrite Z.eqb_refl, date_eqb_refl in Hf. discriminate.
Qed.

End Journal.

(** ** Reading the history *)

Lemma date_leb_spec (a b : date) :
  date_leb a b = true
  <-> year a < year b
      \/ (year a = year b
          /\ (month a < month b \/ (month a = month b /\ day a <= day b))).
Proof.
  unfold date_leb.
  destruct (Nat.ltb_spec (year a) (year b)); [intuition lia|].
  destruct (Nat.ltb_spec (year b) (year a)); [intuition (discriminate||lia)|].
  destruct (Nat.ltb_spec (month a) (month b)); [intuition lia|].
  destruct (Nat.ltb_spec (month b) (month a)); [intuition (discriminate||lia)|].
  rewrite Nat.leb_le. intuition lia.
Qed.

Lemma date_leb_total (a b : date) :
  date_leb a b = false -> date_leb b a = true.
Proof.
  intros H. apply date_leb_spec.
  destruct (date_leb a b) eqn:E; [discriminate|].
  assert (~ (date_leb a b = true)) as Hn by congruence.
  rewrite date_leb_spec in Hn. lia.
Qed.

Lemma date_leb_trans (a b c : date) :
  date_leb a b = true -> date_leb b c = true -> date_leb a c = true.
Proof. rewrite !date_leb_spec. lia. Qed.

Lemma StronglySorted_app_inv (A : Type) (R : A -> A -> Prop)
      (l1 l2 : list A) :
  StronglySorted R (l1 ++ l2) ->
  StronglySorted R l1 /\ StronglySorted R l2
  /\ (forall x y, In x l1 -> In y l2 -> R x y).
Proof.
  induction l1 as [|a l1 IH]; cbn; intros H.
  - repeat split; trivial; [constructor | intros x y []].
  - inversion_clear H as [|? ? Hs Hall].
    destruct (IH Hs) as (H1 & H2 & H3).
    apply Forall_app in Hall as [Ha1 Ha2].
    repeat split; trivial; [now constructor|].
    intros x y [<-|Hx] Hy; [|now apply H3].
    rewrite Forall_forall in Ha2. now apply Ha2.
Qed.

Lemma StronglySorted_rev (A : Type) (R : A -> A -> Prop) (l : list A) :
  StronglySorted R l -> StronglySorted (fun a b => R b a) (rev l).
Proof.
  induction 1 as [|a l Hs IH Hall]; cbn; [constructor|].
  assert (forall l', StronglySorted (fun a b => R b a) l' ->
                     Forall (fun y => R a y) l' ->
                     StronglySorted (fun a b => R b a) (l' ++ [a])) as Hsnoc.
  { induction 1 as [|b l' Hs' IH' Hall']; cbn; intros Hf.
    - repeat constructor.
    - inversion_clear Hf as [|? ? Hb Hrest]. constructor; auto.
      apply Forall_app. split; trivial. now repeat constructor. }
  apply Hsnoc; trivial.
  rewrite Forall_forall in *. intros y Hy. apply Hall. now apply in_rev.
Qed.

(** C6.  [obter_registros] leaves the database as it found it, so asking
    again gives the same answer.  Its answer is 200 with the views, oldest
    date first, of a selection [sel] of the account's entries: [sel] is
    in descending date order, holds 11 entries or all of them when the
    account has fewer, and no entry left out ([rest]) is dated after a
    selected one. *)
Theorem obter_registros_recent (db : DB) (uid : Z) :
  fst (obter_registros db uid) = db
  /\ obter_registros (fst (obter_registros db uid)) uid
     = obter_registros db uid
  /\ exists sel rest,
      snd (obter_registros db uid)
      = Resp 200 (JRegistros (map view (rev sel)))
      /\ Permutation (sel ++ rest) (registros_de db uid)
      /\ List.length sel = Nat.min 11 (List.length (registros_de db uid))
      /\ List.length (map view (rev sel)) <= 11
      /\ StronglySorted
           (fun a b => date_leb (Registro.data b) (Registro.data a) = true)
           sel
      /\ StronglySorted
           (fun a b => date_leb (Registro.data a) (Registro.data b) = true)
           (rev sel)
      /\ (forall x y, In x sel -> In y rest ->
                      date_leb (Registro.data y) (Registro.data x) = true).
Proof.
  split; [reflexivity|]. split; [reflexivity|].
  set (ordenados := order_by_desc data_leb (registros_de db uid)).
  exists (firstn 11 ordenados), (skipn 11 ordenados).
  assert (StronglySorted (fun a b => data_leb b a = true) ordenados) as Hs.
  { apply order_by_desc_sorted; unfold data_leb.
    - intros a b. apply date_leb_total.
    - intros a b c. apply date_leb_trans. }
  rewrite <- (firstn_skipn 11 ordenados) in Hs.
  apply StronglySorted_app_inv in Hs as (Hsel & _ & Hcut).
  assert (List.length (firstn 11 ordenados)
          = Nat.min 11 (List.length (registros_de db uid))) as Hlen
      by (rewrite length_firstn; unfold ordenados;
          now rewrite order_by_desc_length).
  repeat split; trivial.
  - unfold obter_registros; cbn [snd]. fold ordenados.
    now rewrite map_rev.
  - rewrite firstn_skipn. apply order_by_desc_perm.
  - rewrite length_map, length_rev, Hlen. lia.
  - apply (StronglySorted_rev _ _ _ Hsel).
Qed.

(** ** Has the account recorded today? *)

(** C10.  [ja_registrou_hoje] always answers 200 with a boolean, which is
    true exactly when the table holds an entry of that account dated today;
    the answer does not depend on the [usuario] table: it is the same with
    any other set of accounts, among them none at all, and the database is
    left as it was. *)
Theorem ja_registrou_hoje_total (db : DB) (uid : Z) (hoje : date) :
  exists b : bool,
    ja_registrou_hoje db uid hoje = (db, Resp 200 (JJaRegistrou b))
    /\ (b = true <-> ja_existe db uid hoje)
    /\ (forall us : list Usuario.t,
           snd (ja_registrou_hoje (mkDB us (registros db)) uid hoje)
           = Resp 200 (JJaRegistrou b))
    /\ snd (ja_registrou_hoje db uid hoje)
       <> Resp 404 (JMsg "Usuário não encontrado").
Proof.
  unfold ja_registrou_hoje.
  exists (match registro_do_dia db uid hoje with
          | Some _ => true | None => false end).
  repeat split; trivial.
  - intros Hb. apply registro_do_dia_some_iff.
    destruct (registro_do_dia db uid hoje) as [x|]; [now exists x|discriminate].
  - intros Hex. apply registro_do_dia_some_iff in Hex as (x & ->). reflexivity.
  - discriminate.
Qed.

(** ** Accounts *)

Lemma find_app_some (A : Type) (f : A -> bool) (l l' : list A) (x : A) :
  find f l = Some x -> find f (l ++ l') = Some x.
Proof.
  induction l as [|a l IH]; cbn; [discriminate|].
  destruct (f a); trivial.
Qed.

Lemma find_app_none (A : Type) (f : A -> bool) (l l' : list A) :
  find f l = None -> find f (l ++ l') = find f l'.
Proof.
  induction l as [|a l IH]; cbn; trivial.
  destruct (f a); [discriminate | trivial].
Qed.

Lemma update_usuario_twice (db : DB) (u : Usuario.t) :
  update_usuario (update_usuario db u) u = update_usuario db u.
Proof.
  unfold update_usuario; cbn [usuarios registros]. f_equal.
  rewrite map_map. apply map_ext. intros x.
  destruct (Z.eqb_spec (Usuario.id x) (Usuario.id u)) as [E|E].
  - now rewrite Z.eqb_refl.
  - now destruct (Z.eqb_spec (Usuario.id x) (Usuario.id u)).
Qed.

(** What [onboarding] writes for an account [u]. *)
Definition apos_onboarding (u : Usuario.t) (nome : option string)
  : Usuario.t :=
  set_onboarding_done (if Py.truthy nome then set_nome u nome else u).

Lemma apos_onboarding_twice (u : Usuario.t) (nome : option string) :
  apos_onboarding (apos_onboarding u nome) nome = apos_onboarding u nome.
Proof.
  unfold apos_onboarding. destruct u, (Py.truthy nome); reflexivity.
Qed.

Lemma onboarding_found (db : DB) (uid : Z) (u : Usuario.t)
      (nome : option string) :
  usuario_get db uid = Some u ->
  onboarding db uid nome
  = (update_usuario db (apos_onboarding u nome),
     Resp 200 (JMsg "Onboarding atualizado com sucesso")).
Proof. intros H. unfold onboarding. now rewrite H. Qed.

Lemma update_onboarding_found (db : DB) (uid : Z) (u : Usuario.t) :
  usuario_get db uid = Some u ->
  update_onboarding db uid
  = (update_usuario db (set_onboarding_done u),
     Resp 200 (JMsg "Onboarding marcado como concluído.")).
Proof. intros H. unfold update_onboarding. now rewrite H. Qed.

Lemma usuario_get_updated (db : DB) (uid : Z) (u u' : Usuario.t) :
  usuario_get db uid = Some u ->
  Usuario.id u' = Usuario.id u ->
  usuario_get (update_usuario db u') uid = Some u'.
Proof.
  intros Hget Hid. rewrite (usuario_get_update db uid uid u u' Hget Hid).
  now rewrite Z.eqb_refl.
Qed.

Lemma apos_onboarding_id (u : Usuario.t) (nome : option string) :
  Usuario.id (apos_onboarding u nome) = Usuario.id u.
Proof. unfold apos_onboarding. now destruct (Py.truthy nome). Qed.

Section Accounts.
Variable generate_password_hash : string -> string -> string.
Variable check_password_hash : string -> string -> bool.

Local Abbreviation register := (register generate_password_hash).
Local Abbreviation login := (login check_password_hash).
Local Abbreviation step :=
  (step generate_password_hash check_password_hash).
Local Abbreviation reachable :=
  (reachable generate_password_hash check_password_hash).

(** A successful [register] appends exactly the row of the new account. *)
Lemma register_created (db db' : DB) (email senha : option string)
      (salt : string) (body : Json) :
  register db email senha salt = (db', Resp 201 body) ->
  exists e pw,
    email = Some e /\ senha = Some pw
    /\ usuario_by_email db email = None
    /\ db' = mkDB (usuarios db
                   ++ [Usuario.new (next_rowid (map Usuario.id (usuarios db)))
                                   (Some e) (generate_password_hash salt pw)])
                  (registros db).
Proof.
  unfold register.
  destruct (usuario_by_email db email) eqn:Hby; [discriminate|].
  destruct senha as [pw|]; [|discriminate].
  rewrite (insert_usuario_fresh db email _ Hby).
  destruct email as [e|]; [|discriminate].
  intros H. injection H as <- _. now exists e, pw.
Qed.

Lemma register_usuarios (db : DB) (email senha : option string)
      (salt : string) :
  exists novos,
    usuarios (fst (register db email senha salt)) = usuarios db ++ novos.
Proof.
  destruct (register db email senha salt) as [db' resp] eqn:E.
  unfold register in E.
  destruct (usuario_by_email db email) eqn:Hby.
  { injection E as <- _. exists []. now rewrite app_nil_r. }
  destruct senha as [pw|].
  2: { injection E as <- _. exists []. now rewrite app_nil_r. }
  rewrite (insert_usuario_fresh db email _ Hby) in E.
  destruct email as [e|]; injection E as <- _; cbn [fst usuarios].
  - eexists. reflexivity.
  - exists []. now rewrite app_nil_r.
Qed.

(** No request turns a completed onboarding back into a required one. *)
Lemma step_keeps_onboarding_done (db : DB) (req : Request) (uid : Z)
      (u : Usuario.t) :
  usuario_get db uid = Some u ->
  Usuario.onboarding_required u = false ->
  exists u', usuario_get (step db req) uid = Some u'
             /\ Usuario.onboarding_required u' = false.
Proof.
  intros Hget Hdone. unfold step.
  assert (exists u', usuario_get db uid = Some u'
                     /\ Usuario.onboarding_required u' = false) as Hsame
      by (now exists u).
  destruct req; cbn [handle]; trivial.
  - destruct (register_usuarios db email senha salt) as [novos E].
    exists u. split; trivial. unfold usuario_get. rewrite E.
    now apply find_app_some.
  - unfold login. destruct (usuario_by_email db email); trivial.
    destruct senha; trivial. now destruct (negb _).
  - destruct (usuario_get db usuario_id) as [u0|] eqn:H0.
    + rewrite (onboarding_found db usuario_id u0 nome H0). cbn [fst].
      rewrite (usuario_get_update db usuario_id uid u0 _ H0
                 (apos_onboarding_id u0 nome)).
      destruct (Z.eqb uid usuario_id); trivial.
      eexists. split; [reflexivity|]. reflexivity.
    + unfold onboarding. now rewrite H0.
  - destruct (usuario_get db usuario_id) as [u0|] eqn:H0.
    + rewrite (update_onboarding_found db usuario_id u0 H0). cbn [fst].
      rewrite (usuario_get_update db usuario_id uid u0
                 (set_onboarding_done u0) H0 eq_refl).
      destruct (Z.eqb uid usuario_id); trivial.
      eexists. split; reflexivity.
    + unfold update_onboarding. now rewrite H0.
  - rewrite registrar_dados_cases.
    destruct (registro_do_dia db usuario_id data_hoje); trivial.
    cbv zeta. destruct (campos_obrigatorios _); trivial. cbn [fst].
    exists u. split; trivial. unfold usuario_get.
    now rewrite podar_usuarios.
  - unfold check_onboarding. now destruct (usuario_get db usuario_id).
  - unfold get_usuario. now destruct (usuario_get db usuario_id).
  - unfold upload_image. destruct imagem as [f|]; trivial.
    destruct (file_truthy (Some f)); trivial.
    destruct (usuario_get db usuario_id) as [u0|] eqn:H0; trivial.
    destruct upload_result as [[url pid]|]; trivial. cbv zeta. cbn [fst].
    rewrite (usuario_get_update db usuario_id uid u0 (set_imagem u0 url pid)
               H0 eq_refl).
    destruct (Z.eqb_spec uid usuario_id) as [->|Hne]; trivial.
    eexists. split; [reflexivity|]. cbn. congruence.
Qed.

(** C5.  The account [register] creates has [onboarding_required] true.
    Both [onboarding] and [update_onboarding], on an existing account,
    leave it false.  No request of the service makes a false flag true
    again.  Repeating an onboarding call, or following it by the other
    onboarding operation, leaves the database as the first call left it. *)
Theorem onboarding_required_one_way (db : DB) :
  (forall email senha salt db' body,
      register db email senha salt = (db', Resp 201 body) ->
      exists u, usuarios db' = usuarios db ++ [u]
                /\ usuario_by_email db' email = Some u
                /\ Usuario.onboarding_required u = true)
  /\ (forall uid u nome,
         usuario_get db uid = Some u ->
         exists u', usuario_get (fst (onboarding db uid nome)) uid = Some u'
                    /\ Usuario.onboarding_required u' = false)
  /\ (forall uid u,
         usuario_get db uid = Some u ->
         exists u', usuario_get (fst (update_onboarding db uid)) uid = Some u'
                    /\ Usuario.onboarding_required u' = false)
  /\ (forall req uid u,
         usuario_get db uid = Some u ->
         Usuario.onboarding_required u = false ->
         exists u', usuario_get (step db req) uid = Some u'
                    /\ Usuario.onboarding_required u' = false)
  /\ (forall uid nome,
         let db1 := fst (onboarding db uid nome) in
         fst (onboarding db1 uid nome) = db1
         /\ fst (update_onboarding db1 uid) = db1)
  /\ (forall uid,
         let db1 := fst (update_onboarding db uid) in
         fst (update_onboarding db1 uid) = db1
         /\ fst (onboarding db1 uid None) = db1).
Proof.
  repeat apply conj.
  - intros email senha salt db' body Hreg.
    apply register_created in Hreg as (e & pw & -> & -> & Hby & ->).
    eexists. split; [reflexivity|]. split; [|reflexivity].
    unfold usuario_by_email in *. cbn [usuarios].
    rewrite (find_app_none _ _ _ _ Hby). cbn. now rewrite String.eqb_refl.
  - intros uid u nome Hget.
    rewrite (onboarding_found db uid u nome Hget). cbn [fst].
    rewrite (usuario_get_updated db uid u _ Hget (apos_onboarding_id u nome)).
    eexists. split; reflexivity.
  - intros uid u Hget.
    rewrite (update_onboarding_found db uid u Hget). cbn [fst].
    rewrite (usuario_get_updated db uid u (set_onboarding_done u)
               Hget eq_refl).
    eexists. split; reflexivity.
  - intros req uid u. apply step_keeps_onboarding_done.
  - intros uid nome. cbv zeta.
    destruct (usuario_get db uid) as [u|] eqn:Hget.
    + rewrite (onboarding_found db uid u nome Hget). cbn [fst].
      pose proof (usuario_get_updated db uid u _ Hget
                    (apos_onboarding_id u nome)) as Hget1.
      rewrite (onboarding_found _ uid _ nome Hget1),
        (update_onboarding_found _ uid _ Hget1). cbn [fst].
      rewrite apos_onboarding_twice.
      replace (set_onboarding_done (apos_onboarding u nome))
        with (apos_onboarding u nome)
        by (unfold apos_onboarding; now destruct (Py.truthy nome)).
      split; apply update_usuario_twice.
    + unfold onboarding, update_onboarding. rewrite Hget. cbn [fst].
      now rewrite Hget.
  - intros uid. cbv zeta.
    destruct (usuario_get db uid) as [u|] eqn:Hget.
    + rewrite (update_onboarding_found db uid u Hget). cbn [fst].
      pose proof (usuario_get_updated db uid u (set_onboarding_done u)
                    Hget eq_refl) as Hget1.
      rewrite (onboarding_found _ uid _ None Hget1),
        (update_onboarding_found _ uid _ Hget1). cbn [fst].
      split; apply update_usuario_twice.
    + unfold onboarding, update_onboarding. rewrite Hget. cbn [fst].
      now rewrite Hget.
Qed.

End Accounts.

(** ** Registration and login *)

(** [int(str(n))] gives [n] back: the identity a token carries names the
    account. *)
Lemma int_str (z : Z) : Py.int (Py.str z) = Some z.
Proof.
  unfold Py.int, Py.str. rewrite NilZero.isi.
  - cbn. now rewrite DecimalZ.of_to.
  - destruct z; cbn; try discriminate.
    intros H. injection H as H. revert H.
    apply DecimalPos.Unsigned.to_uint_nonnil.
  - destruct z; cbn; try discriminate.
    intros H. injection H as H. revert H.
    apply DecimalPos.Unsigned.to_uint_nonnil.
Qed.

Lemma find_some_of_In (A : Type) (f : A -> bool) (l : list A) (x : A) :
  In x l -> f x = true -> exists y, find f l = Some y.
Proof.
  intros Hin Hf. destruct (find f l) as [y|] eqn:E; [now exists y|].
  pose proof (find_none _ _ E x Hin). congruence.
Qed.

Section Credentials.
Variable generate_password_hash : string -> string -> string.
Variable check_password_hash : string -> string -> bool.

Local Abbreviation register := (register generate_password_hash).
Local Abbreviation login := (login check_password_hash).
Local Abbreviation reachable :=
  (reachable generate_password_hash check_password_hash).

(** C7.  [register] answers with the conflict response, and stores
    nothing, whenever some account already has the submitted email; in every
    reachable state the emails of the accounts are pairwise distinct.  When
    it answers 201 the table has gained exactly one account: the submitted
    email, the hash of the submitted password, the name ["User"], no image
    and [onboarding_required] true.  And it does answer 201, storing that
    account, whenever an email that no account has is submitted with a
    password. *)
Theorem register_unique_email (db : DB) (email senha : option string)
        (salt : string) :
  (forall u, In u (usuarios db) -> Usuario.email u = email ->
             register db email senha salt
             = (db, Resp 400 (JMsg
                  "User already exists. Please try logging in instead.")))
  /\ (reachable db -> NoDup (map Usuario.email (usuarios db)))
  /\ (forall db' body,
         register db email senha salt = (db', Resp 201 body) ->
         exists e pw,
           email = Some e /\ senha = Some pw
           /\ (forall u, In u (usuarios db) -> Usuario.email u <> email)
           /\ registros db' = registros db
           /\ usuarios db'
              = usuarios db
                ++ [Usuario.mk (next_rowid (map Usuario.id (usuarios db)))
                               (Some e) (generate_password_hash salt pw)
                               (Some "User"%string) None None true])
  /\ (forall e pw,
         (forall u, In u (usuarios db) -> Usuario.email u <> Some e) ->
         register db (Some e) (Some pw) salt
         = (mkDB (usuarios db
                  ++ [Usuario.mk (next_rowid (map Usuario.id (usuarios db)))
                                 (Some e) (generate_password_hash salt pw)
                                 (Some "User"%string) None None true])
                 (registros db),
            Resp 201 (JMsg "Usuário criado com sucesso"))).
Proof.
  repeat apply conj.
  - intros u Hin Hemail.
    destruct (find_some_of_In _
                (fun x => option_string_eqb (Usuario.email x) email)
                _ u Hin) as [y Hy]; [now apply option_string_eqb_eq|].
    unfold register, usuario_by_email. now rewrite Hy.
  - intros Hreach. apply reachable_Inv in Hreach as [[_ H _] _]. exact H.
  - intros db' body Hreg.
    apply register_created in Hreg as (e & pw & -> & -> & Hby & ->).
    exists e, pw. repeat split; trivial.
    intros u Hin Hemail.
    pose proof (find_none _ _ Hby u Hin) as Hf. cbv beta in Hf.
    apply option_string_eqb_eq in Hemail. congruence.
  - intros e pw Hfresh.
    assert (usuario_by_email db (Some e) = None) as Hby.
    { destruct (usuario_by_email db (Some e)) as [u|] eqn:E; trivial.
      apply find_some in E as [Hin Heq].
      apply option_string_eqb_eq in Heq. now destruct (Hfresh u Hin). }
    unfold register. rewrite Hby.
    now rewrite (insert_usuario_fresh db (Some e) _ Hby).
Qed.

Hypothesis check_generate :
  forall salt senha,
    check_password_hash (generate_password_hash salt senha) senha = true.

(** C8.  After a [register] that answered 201, [login] with the same email
    and password answers 200 with a token whose identity is the decimal
    text of the new account's identifier (so [int] gives the identifier
    back) and whose expiry is one day, with that identifier and the
    onboarding flag, which is true.  [login] answers 401 when no account
    has the email, and when the password does not verify against the
    stored hash. *)
Theorem login_after_register (db : DB) (email senha : option string)
        (salt : string) :
  (forall db' body,
      register db email senha salt = (db', Resp 201 body) ->
      exists u,
        usuario_by_email db' email = Some u
        /\ login db' email senha
           = (db', Resp 200 (JLogin (mkToken (Py.str (Usuario.id u)) 1)
                                    (Usuario.id u) true))
        /\ Py.int (Py.str (Usuario.id u)) = Some (Usuario.id u)
        /\ Usuario.onboarding_required u = true)
  /\ (usuario_by_email db email = None ->
      login db email senha
      = (db, Resp 401 (JMsg "Incorrect username or password.")))
  /\ (forall u pw,
         usuario_by_email db email = Some u ->
         senha = Some pw ->
         check_password_hash (Usuario.senha_hash u) pw = false ->
         login db email senha
         = (db, Resp 401 (JMsg "Incorrect username or password."))).
Proof.
  repeat apply conj.
  - intros db' body Hreg.
    apply register_created in Hreg as (e & pw & -> & -> & Hby & ->).
    set (u := Usuario.new _ (Some e) _).
    assert (usuario_by_email
              (mkDB (usuarios db ++ [u]) (registros db)) (Some e) = Some u)
      as Hfound.
    { unfold usuario_by_email in *. cbn [usuarios].
      rewrite (find_app_none _ _ _ _ Hby). cbn.
      now rewrite String.eqb_refl. }
    exists u. repeat split; trivial; [|apply int_str].
    unfold login. rewrite Hfound.
    unfold u at 1. cbn [Usuario.new Usuario.senha_hash].
    rewrite check_generate. reflexivity.
  - intros Hnone. unfold login. now rewrite Hnone.
  - intros u pw Hsome -> Hbad. unfold login.
    now rewrite Hsome, Hbad.
Qed.

End Credentials.

(** ** Replacing the profile image *)

(** C9.  Without a file [upload_image] answers 400 and touches neither the
    database nor Cloudinary.  With a file, for an account whose
    [imagem_public_id] is a non-empty string, the first thing it does is
    the [destroy] of that identifier, and the upload follows whether or not
    [destroy] raised (a failure is only printed).  Whether [destroy] raises
    changes neither the response nor the database.  When the upload
    succeeds the answer is 200 with the new url and identifier, and the
    database differs from the old one by one update of the account's row
    that sets [imagem_url] and [imagem_public_id] together. *)
Theorem upload_image_replaces (db : DB) (uid : Z) :
  (forall dr ur,
      upload_image db uid None dr ur
      = (db, Resp 400 (JMsg "Nenhum arquivo enviado"), []))
  /\ (forall u f pid dr ur,
         usuario_get db uid = Some u ->
         file_truthy (Some f) = true ->
         Usuario.imagem_public_id u = Some pid ->
         pid <> EmptyString ->
         snd (upload_image db uid (Some f) dr ur)
         = Destroy pid :: (if dr then [PrintErro] else []) ++ [Upload f])
  /\ (forall imagem ur,
         fst (upload_image db uid imagem true ur)
         = fst (upload_image db uid imagem false ur))
  /\ (forall u f dr url pid,
         usuario_get db uid = Some u ->
         file_truthy (Some f) = true ->
         let u' := Usuario.mk (Usuario.id u) (Usuario.email u)
                              (Usuario.senha_hash u) (Usuario.nome u)
                              (Some url) (Some pid)
                              (Usuario.onboarding_required u) in
         fst (upload_image db uid (Some f) dr (Some (url, pid)))
         = (update_usuario db u', Resp 200 (JImagem (Some url) (Some pid)))
         /\ usuario_get (update_usuario db u') uid = Some u').
Proof.
  repeat apply conj.
  - reflexivity.
  - intros u f pid dr ur Hget Hfile Hpid Hne.
    unfold upload_image. rewrite Hfile, Hget, Hpid.
    assert (Py.truthy (Some pid) = true) as ->.
    { cbn. apply negb_true_iff. now apply String.eqb_neq. }
    destruct ur as [[url pid']|], dr; reflexivity.
  - intros imagem ur. unfold upload_image.
    destruct imagem as [f|]; trivial.
    destruct (file_truthy (Some f)); trivial.
    destruct (usuario_get db uid); trivial.
    destruct ur as [[url pid']|]; reflexivity.
  - intros u f dr url pid Hget Hfile. cbv zeta. split.
    + unfold upload_image. rewrite Hfile, Hget. reflexivity.
    + now apply (usuario_get_updated db uid u).
Qed.

(** ** The onboarding handler on a missing account *)

Lemma onboarding_not_found_raises (db : DB) (uid : Z)
      (nome : option string) :
  usuario_get db uid = None ->
  onboarding db uid nome = (db, Unhandled AttributeError).
Proof. intros H. unfold onboarding. now rewrite H. Qed.

(** C3.  With no account 1 in the database, [onboarding] does not answer
    404: the attribute assignment on [None] raises and the request ends in
    an unhandled [AttributeError], with or without a name in the body.
    [update_onboarding] on the same input answers 404. *)
Theorem onboarding_missing_account_raises :
  onboarding empty_db 1 (Some "Ana"%string)
  = (empty_db, Unhandled AttributeError)
  /\ onboarding empty_db 1 None = (empty_db, Unhandled AttributeError)
  /\ update_onboarding empty_db 1
     = (empty_db, Resp 404 (JMsg "Usuário não encontrado")).
Proof. repeat split. Qed.

(** ** The schema of [registro] and the day of an entry *)

Definition dia_1 : date := mkdate 2024 1 1.

Definition registro_a : Registro.t :=
  Registro.mk 1 dia_1 (Some "ok"%string) (Some "calm"%string) None
              (Some "7"%string) 1.

Definition registro_b : Registro.t :=
  Registro.mk 2 dia_1 (Some "sad"%string) (Some "tired"%string) None
              (Some "5"%string) 1.

(** C2, as stated, fails: the columns of [Registro] declare no uniqueness
    constraint on ([id_usuario], [data]), and the store takes a second row
    for account 1 on 2024-01-01. *)
Lemma registro_store_accepts_same_day :
  ~ In ["id_usuario"; "data"]%string (unique_constraints Registro.columns)
  /\ ~ In ["data"; "id_usuario"]%string (unique_constraints Registro.columns)
  /\ dia registro_a = dia registro_b
  /\ insert_registro (mkDB [] [registro_a]) registro_b
     = inr (mkDB [] [registro_a; registro_b]).
Proof.
  repeat split; cbn; intros [H|[]]; discriminate.
Qed.

Section Schema.
Variable generate_password_hash : string -> string -> string.
Variable check_password_hash : string -> string -> bool.

(** C2, amended.  The only uniqueness constraint of [registro] is its
    primary key: the store accepts any row with the required fields and a
    fresh identifier, also when the account already has an entry of that
    date.  That an account has at most one entry per date holds in every
    reachable state, through the existence check of [registrar_dados]. *)
Theorem registro_unique_only_by_handler (db : DB) (r : Registro.t) :
  unique_constraints Registro.columns = [["id"%string]]
  /\ (campos_obrigatorios r = true ->
      (forall x, In x (registros db) -> Registro.id x <> Registro.id r) ->
      insert_registro db r
      = inr (mkDB (usuarios db) (registros db ++ [r])))
  /\ (reachable generate_password_hash check_password_hash db ->
      NoDup (map dia (registros db))).
Proof.
  repeat apply conj.
  - reflexivity.
  - intros Hcampos Hfresh. unfold insert_registro.
    rewrite registro_null_violation, registro_unique_violation, Hcampos.
    replace (existsb _ (registros db)) with false; trivial.
    symmetry. destruct (existsb _ (registros db)) eqn:E; trivial.
    apply existsb_exists in E as (x & Hin & Heq). apply Z.eqb_eq in Heq.
    exfalso. now apply (Hfresh x Hin).
  - intros Hreach. apply reachable_Inv in Hreach as [_ [_ H _]]. exact H.
Qed.

End Schema.

(** * Instances *)

(** A hasher that keeps the password in clear.  It satisfies the contract
    assumed of [werkzeug.security] above and serves to run the handlers on
    concrete requests. *)
Definition generate_clear (salt senha : string) : string := senha.

Definition check_clear (pwhash senha : string) : bool :=
  String.eqb pwhash senha.

Lemma check_generate_clear (salt senha : string) :
  check_clear (generate_clear salt senha) senha = true.
Proof. apply String.eqb_refl. Qed.

Definition registro_no_dia (n : nat) : Request :=
  ReqRegistro 1 (mkdate 2024 1 n) (Some "ok"%string) (Some "calm"%string)
              None (Some "7"%string).

(** Twelve entries of account 1, on twelve consecutive days. *)
Definition doze_dias : list Request := map registro_no_dia (seq 1 12).

Definition db_doze_dias : DB := run generate_clear check_clear doze_dias.

(** One registered account. *)
Definition db_uma_conta : DB :=
  run generate_clear check_clear
      [ReqRegister (Some "a@x.com"%string) (Some "p1"%string) "s"%string].

(** The same account after a first image upload. *)
Definition db_com_imagem : DB :=
  step generate_clear check_clear db_uma_conta
       (ReqUploadImage 1 (Some (mkFile "a.png" "..."))
                       false (Some ("https://img/1"%string, "mood/1"%string))).

Lemma registrar_dados_retention_witness :
  reachable generate_clear check_clear db_doze_dias
  /\ List.length
       (registros_de
          (fst (registrar_dados db_doze_dias 1 (mkdate 2024 1 13)
                                (Some "ok"%string) (Some "calm"%string) None
                                (Some "7"%string))) 1) <= 11.
Proof.
  split.
  - apply reachable_run.
  - exact (proj1 (registrar_dados_retention
                    generate_clear check_clear db_doze_dias 1
                    (mkdate 2024 1 13) (Some "ok"%string)
                    (Some "calm"%string) None (Some "7"%string)
                    (reachable_run generate_clear check_clear doze_dias))).
Defined.

(** After the twelve days the first entry is gone; a thirteenth entry, even
    one dated before all the others, pushes out the entry with the smallest
    identifier and stays itself. *)
Example poda_por_identificador :
  map Registro.id (registros db_doze_dias)
  = [2; 3; 4; 5; 6; 7; 8; 9; 10; 11; 12]%Z
  /\ map (fun r => (Registro.id r, Registro.data r))
         (registros
            (fst (registrar_dados db_doze_dias 1 (mkdate 2023 12 31)
                                  (Some "ok"%string) (Some "calm"%string)
                                  None (Some "7"%string))))
     = [(3, mkdate 2024 1 3); (4, mkdate 2024 1 4); (5, mkdate 2024 1 5);
        (6, mkdate 2024 1 6); (7, mkdate 2024 1 7); (8, mkdate 2024 1 8);
        (9, mkdate 2024 1 9); (10, mkdate 2024 1 10);
        (11, mkdate 2024 1 11); (12, mkdate 2024 1 12);
        (13, mkdate 2023 12 31)]%Z.
Proof. split; vm_compute; reflexivity. Qed.

Lemma registrar_dados_conflict_or_create_witness :
  reachable generate_clear check_clear empty_db
  /\ ~ ja_existe empty_db 1 dia_1
  /\ snd (registrar_dados empty_db 1 dia_1 (Some "ok"%string)
                          (Some "calm"%string) None (Some "7"%string))
     = Resp 201 (JMsg "Registro salvo com sucesso.").
Proof.
  assert (~ ja_existe empty_db 1 dia_1) as Hnot
      by (intros (r & Hin & _); exact Hin).
  split; [constructor|]. split; [exact Hnot|].
  destruct (registrar_dados_conflict_or_create
              generate_clear check_clear empty_db 1 dia_1
              "ok" "calm" "7" None
              (reachable_init generate_clear check_clear)) as (_ & _ & H).
  exact (proj1 (H Hnot)).
Defined.

Lemma onboarding_required_one_way_witness :
  usuario_get db_uma_conta 1
  = Some (Usuario.mk 1 (Some "a@x.com"%string) "p1" (Some "User"%string)
                     None None true)
  /\ exists u',
      usuario_get (fst (onboarding db_uma_conta 1 (Some "Ana"%string))) 1
      = Some u'
      /\ Usuario.onboarding_required u' = false.
Proof.
  split; [reflexivity|].
  destruct (onboarding_required_one_way generate_clear check_clear
                                        db_uma_conta) as (_ & H & _).
  exact (H 1%Z _ (Some "Ana"%string) eq_refl).
Defined.

Lemma register_unique_email_witness :
  reachable generate_clear check_clear db_uma_conta
  /\ NoDup (map Usuario.email (usuarios db_uma_conta))
  /\ register generate_clear db_uma_conta (Some "a@x.com"%string)
              (Some "outra"%string) "t"
     = (db_uma_conta,
        Resp 400 (JMsg "User already exists. Please try logging in instead."))
  /\ (forall u, In u (usuarios db_uma_conta) ->
                Usuario.email u <> Some "b@x.com"%string)
  /\ register generate_clear db_uma_conta (Some "b@x.com"%string)
              (Some "p2"%string) "t"
     = (mkDB [Usuario.mk 1 (Some "a@x.com"%string) "p1" (Some "User"%string)
                         None None true;
              Usuario.mk 2 (Some "b@x.com"%string) "p2" (Some "User"%string)
                         None None true] [],
        Resp 201 (JMsg "Usuário criado com sucesso")).
Proof.
  destruct (register_unique_email generate_clear check_clear db_uma_conta
              (Some "a@x.com"%string) (Some "outra"%string) "t")
    as (Hconflict & Hdistinct & _ & Hcreate).
  assert (forall u, In u (usuarios db_uma_conta) ->
                    Usuario.email u <> Some "b@x.com"%string) as Hfresh
      by (intros u [<-|[]]; discriminate).
  split; [apply reachable_run|]. split; [|split; [|split]].
  - apply Hdistinct, reachable_run.
  - apply (Hconflict (Usuario.mk 1 (Some "a@x.com"%string) "p1"
                                 (Some "User"%string) None None true)).
    + left. reflexivity.
    + reflexivity.
  - exact Hfresh.
  - exact (Hcreate "b@x.com"%string "p2"%string Hfresh).
Defined.

Lemma login_after_register_witness :
  (forall salt senha,
      check_clear (generate_clear salt senha) senha = true)
  /\ register generate_clear empty_db (Some "a@x.com"%string)
              (Some "p1"%string) "s"
     = (db_uma_conta, Resp 201 (JMsg "Usuário criado com sucesso"))
  /\ exists u,
      usuario_by_email db_uma_conta (Some "a@x.com"%string) = Some u
      /\ login check_clear db_uma_conta (Some "a@x.com"%string)
               (Some "p1"%string)
         = (db_uma_conta,
            Resp 200 (JLogin (mkToken (Py.str (Usuario.id u)) 1)
                             (Usuario.id u) true))
      /\ Py.int (Py.str (Usuario.id u)) = Some (Usuario.id u)
      /\ Usuario.onboarding_required u = true.
Proof.
  split; [exact check_generate_clear|]. split; [reflexivity|].
  destruct (login_after_register generate_clear check_clear
              check_generate_clear empty_db (Some "a@x.com"%string)
              (Some "p1"%string) "s") as (H & _).
  exact (H db_uma_conta _ eq_refl).
Defined.

Lemma upload_image_replaces_witness :
  usuario_get db_com_imagem 1
  = Some (Usuario.mk 1 (Some "a@x.com"%string) "p1" (Some "User"%string)
                     (Some "https://img/1"%string) (Some "mood/1"%string)
                     true)
  /\ snd (upload_image db_com_imagem 1 (Some (mkFile "b.png" "..."))
                       true (Some ("https://img/2"%string, "mood/2"%string)))
     = [Destroy "mood/1"; PrintErro; Upload (mkFile "b.png" "...")].
Proof.
  split; [reflexivity|].
  destruct (upload_image_replaces db_com_imagem 1) as (_ & H & _).
  apply (H _ (mkFile "b.png" "...") "mood/1"%string true _ eq_refl eq_refl
           eq_refl).
  discriminate.
Defined.

Lemma registro_unique_only_by_handler_witness :
  campos_obrigatorios registro_b = true
  /\ (forall x, In x (registros (mkDB [] [registro_a])) ->
                Registro.id x <> Registro.id registro_b)
  /\ insert_registro (mkDB [] [registro_a]) registro_b
     = inr (mkDB [] [registro_a; registro_b]).
Proof.
  assert (forall x, In x (registros (mkDB [] [registro_a])) ->
                    Registro.id x <> Registro.id registro_b) as Hfresh
      by (intros x [<-|[]]; discriminate).
  split; [reflexivity|]. split; [exact Hfresh|].
  destruct (registro_unique_only_by_handler generate_clear check_clear
              (mkDB [] [registro_a]) registro_b) as (_ & H & _).
  exact (H eq_refl Hfresh).
Defined.

(** * Further properties of the handlers *)

(** ** What a request can do to the accounts *)

(** The columns of an account that identify it and its credentials. *)
Definition credenciais (u : Usuario.t) : Z * option string * string :=
  (Usuario.id u, Usuario.email u, Usuario.senha_hash u).

(** [u'] has the image columns of [u], or both of its own. *)
Definition imagens_juntas (u u' : Usuario.t) : Prop :=
  (Usuario.imagem_url u' = Usuario.imagem_url u
   /\ Usuario.imagem_public_id u' = Usuario.imagem_public_id u)
  \/ (Usuario.imagem_url u' <> None /\ Usuario.imagem_public_id u' <> None).

(** A 2xx answer. *)
Definition sucesso (r : Response) : bool :=
  match r with
  | Resp status _ => Nat.leb 200 status && Nat.ltb status 300
  | Unhandled _ => false
  end.

Section Effects.
Variable generate_password_hash : string -> string -> string.
Variable check_password_hash : string -> string -> bool.

Local Abbreviation step :=
  (step generate_password_hash check_password_hash).
Local Abbreviation reachable :=
  (reachable generate_password_hash check_password_hash).

(** The [usuario] table after a request: untouched, one account more, or
    one row rewritten with its identifier, email and hash kept. *)
Inductive mudanca (db : DB) : list Usuario.t -> Prop :=
| mudanca_nenhuma : mudanca db (usuarios db)
| mudanca_conta (e pw salt : string) :
    usuario_by_email db (Some e) = None ->
    mudanca db
      (usuarios db
       ++ [Usuario.new (next_rowid (map Usuario.id (usuarios db)))
                       (Some e) (generate_password_hash salt pw)])
| mudanca_linha (uid : Z) (u u' : Usuario.t) :
    usuario_get db uid = Some u ->
    credenciais u' = credenciais u ->
    imagens_juntas u u' ->
    (Usuario.onboarding_required u = false ->
     Usuario.onboarding_required u' = false) ->
    mudanca db (usuarios (update_usuario db u')).

Lemma step_mudanca (db : DB) (req : Request) :
  mudanca db (usuarios (step db req)).
Proof.
  unfold step. destruct req; cbn [handle].
  - destruct (register generate_password_hash db email senha salt)
      as [db' resp] eqn:E.
    unfold register in E.
    destruct (usuario_by_email db email) eqn:Hby;
      [injection E as <- _; constructor|].
    destruct senha as [pw|]; [|injection E as <- _; constructor].
    rewrite (insert_usuario_fresh db email _ Hby) in E.
    destruct email as [e|]; injection E as <- _; cbn [fst usuarios];
      [now constructor | constructor].
  - unfold login. destruct (usuario_by_email db email); [|constructor].
    destruct senha; [|constructor]. destruct (negb _); constructor.
  - destruct (usuario_get db usuario_id) as [u|] eqn:Hget.
    + rewrite (onboarding_found db usuario_id u nome Hget). cbn [fst].
      apply (mudanca_linha db usuario_id u); trivial.
      * unfold apos_onboarding. now destruct (Py.truthy nome).
      * left. unfold apos_onboarding. now destruct (Py.truthy nome).
    + unfold onboarding. rewrite Hget. constructor.
  - destruct (usuario_get db usuario_id) as [u|] eqn:Hget.
    + rewrite (update_onboarding_found db usuario_id u Hget). cbn [fst].
      apply (mudanca_linha db usuario_id u); trivial. now left.
    + unfold update_onboarding. rewrite Hget. constructor.
  - rewrite registrar_dados_cases.
    destruct (registro_do_dia db usuario_id data_hoje); [constructor|].
    cbv zeta. destruct (campos_obrigatorios _); [|constructor]. cbn [fst].
    rewrite podar_usuarios. exact (mudanca_nenhuma db).
  - constructor.
  - unfold check_onboarding. destruct (usuario_get db usuario_id); constructor.
  - unfold get_usuario. destruct (usuario_get db usuario_id); constructor.
  - unfold upload_image. destruct imagem as [f|]; [|constructor].
    destruct (file_truthy (Some f)); [|constructor].
    destruct (usuario_get db usuario_id) as [u|] eqn:Hget; [|constructor].
    destruct upload_result as [[url pid]|]; [|constructor].
    cbv zeta. cbn [fst].
    apply (mudanca_linha db usuario_id u); trivial.
    right. split; discriminate.
  - constructor.
Qed.

(** X1.  A request that is not answered with a 2xx status leaves the
    database exactly as it was: the conflict, not-found, bad-credentials
    and no-file answers, and the unhandled exceptions, write nothing. *)
Theorem failure_writes_nothing (db : DB) (req : Request) :
  sucesso (snd (handle generate_password_hash check_password_hash db req))
  = false ->
  step db req = db.
Proof.
  unfold step. destruct req; cbn [handle].
  - unfold register. destruct (usuario_by_email db email); trivial.
    destruct senha; trivial.
    destruct (insert_usuario db email _); trivial. discriminate.
  - unfold login. destruct (usuario_by_email db email); trivial.
    destruct senha; trivial. now destruct (negb _).
  - unfold onboarding. destruct (usuario_get db usuario_id); trivial.
    discriminate.
  - unfold update_onboarding. destruct (usuario_get db usuario_id); trivial.
    discriminate.
  - rewrite registrar_dados_cases.
    destruct (registro_do_dia db usuario_id data_hoje); trivial.
    cbv zeta. destruct (campos_obrigatorios _); trivial. discriminate.
  - trivial.
  - unfold check_onboarding. now destruct (usuario_get db usuario_id).
  - unfold get_usuario. now destruct (usuario_get db usuario_id).
  - unfold upload_image. destruct imagem as [f|]; trivial.
    destruct (file_truthy (Some f)); trivial.
    destruct (usuario_get db usuario_id); trivial.
    destruct upload_result as [[url pid]|]; trivial. discriminate.
  - trivial.
Qed.

(** X2.  In a reachable state no request removes an account or changes
    the identifier, the email or the password hash of one: the list of
    these columns only grows, by at most one row, at its end. *)
Theorem accounts_keep_credentials (db : DB) (req : Request) :
  reachable db ->
  exists novos,
    map credenciais (usuarios (step db req))
    = map credenciais (usuarios db) ++ novos
    /\ List.length novos <= 1.
Proof.
  intros Hreach. apply reachable_Inv in Hreach as [[Hids _ _] _].
  destruct (step_mudanca db req) as [|e pw salt Hby|uid u u' Hget Hcred _ _].
  - exists []. rewrite app_nil_r. auto.
  - eexists. rewrite map_app. split; [reflexivity|]. cbn. lia.
  - exists []. rewrite app_nil_r. split; [|cbn; lia].
    apply (update_usuario_column _ credenciais db uid u u');
      trivial; [now apply ascending_NoDup|].
    unfold credenciais in Hcred. congruence.
Qed.

Lemma fold_right_max_app (l l' : list Z) :
  fold_right Z.max 0%Z (l ++ l')
  = Z.max (fold_right Z.max 0%Z l) (fold_right Z.max 0%Z l').
Proof.
  induction l as [|a l IH]; cbn [app fold_right].
  - assert (0 <= fold_right Z.max 0 l')%Z
      by (induction l'; cbn [fold_right]; lia).
    lia.
  - rewrite IH. lia.
Qed.

Lemma next_rowid_seq (n : nat) :
  next_rowid (map Z.of_nat (seq 1 n)) = Z.of_nat (S n).
Proof.
  unfold next_rowid.
  assert (fold_right Z.max 0%Z (map Z.of_nat (seq 1 n)) = Z.of_nat n) as ->;
    [|lia].
  induction n as [|n IH]; trivial.
  rewrite seq_S, map_app, fold_right_max_app, IH.
  cbn [map fold_right Nat.add]. lia.
Qed.

Lemma usuario_get_some_iff (db : DB) (uid : Z) :
  (exists u, usuario_get db uid = Some u)
  <-> In uid (map Usuario.id (usuarios db)).
Proof.
  split.
  - intros (u & Hget). apply usuario_get_In in Hget as [Hin <-].
    now apply in_map.
  - intros Hin. apply in_map_iff in Hin as (u & Hid & Hin).
    apply (find_some_of_In _ _ _ u Hin). now apply Z.eqb_eq.
Qed.

(** X3.  In a reachable state the accounts are numbered 1, 2, ..., n in
    the order they were registered, so an identifier names an account
    exactly when it lies between 1 and the number of accounts. *)
Theorem account_ids_consecutive (db : DB) :
  reachable db ->
  map Usuario.id (usuarios db)
  = map Z.of_nat (seq 1 (List.length (usuarios db)))
  /\ (forall uid,
         (exists u, usuario_get db uid = Some u)
         <-> (1 <= uid <= Z.of_nat (List.length (usuarios db)))%Z).
Proof.
  intros Hreach.
  assert (map Usuario.id (usuarios db)
          = map Z.of_nat (seq 1 (List.length (usuarios db)))) as Hids.
  { induction Hreach as [|db req Hreach IH]; trivial.
    destruct (step_mudanca db req) as [|e pw salt Hby|uid u u' Hget Hcred _ _];
      trivial.
    - rewrite map_app, length_app, Nat.add_comm. cbn [List.length Nat.add].
      rewrite seq_S, map_app, <- IH. cbn [map Usuario.new Usuario.id].
      rewrite IH at 2. now rewrite next_rowid_seq.
    - rewrite update_usuario_ids, IH.
      unfold update_usuario; cbn [usuarios]. now rewrite !length_map. }
  split; trivial. intros uid.
  rewrite usuario_get_some_iff, Hids, in_map_iff. split.
  - intros (k & <- & Hk). apply in_seq in Hk. lia.
  - intros Huid. exists (Z.to_nat uid). split; [lia|].
    apply in_seq. lia.
Qed.

(** X4.  In a reachable state every account has either both image
    columns set or neither: [imagem_url] and [imagem_public_id] are only
    ever written together. *)
Theorem image_columns_paired (db : DB) (u : Usuario.t) :
  reachable db ->
  In u (usuarios db) ->
  (Usuario.imagem_url u = None <-> Usuario.imagem_public_id u = None).
Proof.
  intros Hreach. revert u.
  induction Hreach as [|db req Hreach IH]; [intros u []|].
  intros x Hx.
  destruct (step_mudanca db req) as [|e pw salt Hby|uid u u' Hget Hcred Hj _].
  - now apply IH.
  - apply in_app_or in Hx as [Hx|[<-|[]]]; [now apply IH|]. now cbn.
  - unfold update_usuario in Hx; cbn [usuarios] in Hx.
    apply in_map_iff in Hx as (y & Hy & Hin).
    destruct (Z.eqb (Usuario.id y) (Usuario.id u')); [|subst; now apply IH].
    subst x. apply usuario_get_In in Hget as [Hu _].
    destruct Hj as [[-> ->]|[H1 H2]]; [now apply IH|].
    split; intros; congruence.
Qed.

End Effects.

(** ** Sessions *)

Lemma usuario_get_of_In (db : DB) (u : Usuario.t) :
  NoDup (map Usuario.id (usuarios db)) ->
  In u (usuarios db) ->
  usuario_get db (Usuario.id u) = Some u.
Proof.
  intros Hnd Hin.
  destruct (find_some_of_In _ (fun x => Z.eqb (Usuario.id x) (Usuario.id u))
                            _ u Hin (Z.eqb_refl _)) as [y Hy].
  unfold usuario_get. rewrite Hy. f_equal.
  apply find_some in Hy as [Hyin Hyid]. apply Z.eqb_eq in Hyid.
  now apply (NoDup_map_inj _ _ Usuario.id (usuarios db)).
Qed.

Lemma find_email_prefix (l l' : list Usuario.t)
      (extra : list (Z * option string * string)) (e : option string)
      (u : Usuario.t) :
  map credenciais l' = map credenciais l ++ extra ->
  find (fun x => option_string_eqb (Usuario.email x) e) l = Some u ->
  exists u',
    find (fun x => option_string_eqb (Usuario.email x) e) l' = Some u'
    /\ credenciais u' = credenciais u.
Proof.
  revert l'. induction l as [|a l IH]; intros l' Hmap Hfind;
    [discriminate|].
  destruct l' as [|a' l']; [discriminate|].
  cbn [map app] in Hmap.
  assert (credenciais a' = credenciais a) as Ha by congruence.
  assert (map credenciais l' = map credenciais l ++ extra) as Hrest
      by congruence.
  cbn [find] in *.
  assert (Usuario.email a' = Usuario.email a) as ->
      by (unfold credenciais in Ha; congruence).
  destruct (option_string_eqb (Usuario.email a) e).
  - injection Hfind as <-. exists a'. split; trivial.
  - now apply IH.
Qed.

Section Sessions.
Variable generate_password_hash : string -> string -> string.
Variable check_password_hash : string -> string -> bool.

Local Abbreviation step :=
  (step generate_password_hash check_password_hash).
Local Abbreviation reachable :=
  (reachable generate_password_hash check_password_hash).

Lemma fold_keeps_credentials (reqs : list Request) (db : DB) :
  reachable db ->
  exists novos,
    map credenciais (usuarios (fold_left step reqs db))
    = map credenciais (usuarios db) ++ novos.
Proof.
  revert db. induction reqs as [|req reqs IH]; intros db Hreach.
  - exists []. now rewrite app_nil_r.
  - cbn [fold_left].
    destruct (IH (step db req) (reachable_step req Hreach))
      as [novos Hn].
    rewrite Hn.
    pose proof (reachable_Inv _ _ db Hreach) as [[Hids _ _] _].
    destruct (step_mudanca generate_password_hash check_password_hash db req)
      as [|e pw salt Hby|uid u u' Hget Hcred _ _].
    + now exists novos.
    + eexists. rewrite map_app, <- app_assoc. reflexivity.
    + exists novos. f_equal.
      apply (update_usuario_column _ credenciais db uid u u');
        trivial; [now apply ascending_NoDup|].
      unfold credenciais in Hcred. congruence.
Qed.

(** X6.  In a reachable state a 200 answer of [login] changes nothing and
    carries a token that expires in one day and whose identity, read back
    with [int], is the identifier in the answer; that identifier is the
    account with the submitted email, and [check_onboarding] called with
    it answers the same flag. *)
Theorem login_token_names_account (db db' : DB) (email senha : option string)
        (token : Token) (uid : Z) (flag : bool) :
  reachable db ->
  login check_password_hash db email senha
  = (db', Resp 200 (JLogin token uid flag)) ->
  db' = db
  /\ Py.int (identity token) = Some uid
  /\ expires_delta_days token = 1
  /\ exists u, usuario_get db uid = Some u
               /\ Usuario.email u = email
               /\ Usuario.onboarding_required u = flag
               /\ check_onboarding db uid = (db, Resp 200 (JOnboarding flag)).
Proof.
  intros Hreach. apply reachable_Inv in Hreach as [[Hids _ _] _].
  unfold login.
  destruct (usuario_by_email db email) as [u|] eqn:Hby; [|discriminate].
  destruct senha as [pw|]; [|discriminate].
  destruct (negb _); [discriminate|].
  intros H. injection H as <- <- <- <-.
  apply find_some in Hby as [Hin Hemail].
  apply option_string_eqb_eq in Hemail.
  pose proof (usuario_get_of_In db u (ascending_NoDup _ Hids) Hin) as Hget.
  repeat split; trivial; [apply int_str|].
  exists u. repeat split; trivial.
  unfold check_onboarding. now rewrite Hget.
Qed.

Hypothesis check_generate :
  forall salt senha,
    check_password_hash (generate_password_hash salt senha) senha = true.

(** X5.  Once [register] has answered 201 in a reachable state, [login]
    with the same email and password answers 200 with the identifier the
    account was given, after any sequence of further requests: nothing the
    service does later locks the account out or renumbers it. *)
Theorem login_survives_later_requests (db db1 : DB)
        (email senha : option string) (salt : string) (body : Json)
        (reqs : list Request) :
  reachable db ->
  register generate_password_hash db email senha salt
  = (db1, Resp 201 body) ->
  let uid := next_rowid (map Usuario.id (usuarios db)) in
  let dbn := fold_left step reqs db1 in
  exists flag,
    login check_password_hash dbn email senha
    = (dbn, Resp 200 (JLogin (mkToken (Py.str uid) 1) uid flag)).
Proof.
  intros Hreach Hreg. cbv zeta.
  assert (reachable db1) as Hreach1.
  { replace db1 with (step db (ReqRegister email senha salt));
      [now constructor|].
    unfold step. cbn [handle]. now rewrite Hreg. }
  apply register_created in Hreg as (e & pw & -> & -> & Hby & Hdb1).
  set (u := Usuario.new (next_rowid (map Usuario.id (usuarios db)))
                        (Some e) (generate_password_hash salt pw)) in *.
  assert (usuario_by_email db1 (Some e) = Some u) as Hfound.
  { rewrite Hdb1. unfold usuario_by_email in *. cbn [usuarios].
    rewrite (find_app_none _ _ _ _ Hby). cbn.
    now rewrite String.eqb_refl. }
  destruct (fold_keeps_credentials reqs db1 Hreach1) as [novos Hn].
  destruct (find_email_prefix _ _ _ _ _ Hn Hfound) as (u' & Hfound' & Hcred).
  unfold credenciais in Hcred. injection Hcred as Hid Hemail Hhash.
  exists (Usuario.onboarding_required u').
  unfold login, usuario_by_email. rewrite Hfound', Hhash.
  cbn [u Usuario.new Usuario.senha_hash]. rewrite check_generate.
  cbn [negb]. now rewrite Hid.
Qed.

End Sessions.

(** ** More on the journal *)

Lemma date_leb_antisym (a b : date) :
  date_leb a b = true -> date_leb b a = true -> a = b.
Proof.
  rewrite !date_leb_spec. destruct a as [y m d], b as [y' m' d']; cbn.
  intros H1 H2.
  assert (y = y' /\ m = m' /\ d = d') as (-> & -> & ->) by lia.
  reflexivity.
Qed.

(** The entry a successful [registrar_dados] stores is the account's entry
    of the day afterwards. *)
Lemma registro_do_dia_apos (db : DB) (uid : Z) (hoje : date)
      (h c d s : option string) :
  Inv db ->
  registro_do_dia db uid hoje = None ->
  let r := novo_registro db uid hoje h c d s in
  registro_do_dia (podar (com_novo db r) uid) uid hoje = Some r.
Proof.
  intros HI Hdia r.
  pose proof (Inv_registrar db uid hoje h c d s Hdia HI) as [_ [_ Hdias _]].
  fold r in Hdias. destruct HI as [_ [H1 _ _]].
  pose proof (com_novo_ascending db uid hoje h c d s H1) as Hasc.
  fold r in Hasc.
  pose proof (registros_de_podar _ uid Hasc) as Hpod. cbv zeta in Hpod.
  unfold r in Hpod at 2 3. rewrite registros_de_com_novo in Hpod.
  fold r in Hpod.
  assert (In r (registros (podar (com_novo db r) uid))) as Hin.
  { assert (In r (registros_de (podar (com_novo db r) uid) uid)) as Hin
        by (rewrite Hpod; apply In_last_skipn; rewrite length_app; cbn; lia).
    now apply filter_In in Hin. }
  destruct (registro_do_dia (podar (com_novo db r) uid) uid hoje)
    as [x|] eqn:E.
  - apply find_some in E as [Hx Hf].
    apply andb_true_iff in Hf as [Hu Hd].
    apply Z.eqb_eq in Hu. apply date_eqb_eq in Hd.
    f_equal. apply (NoDup_map_inj _ _ dia _ x r Hdias Hx Hin).
    unfold dia. now rewrite Hu, Hd.
  - pose proof (find_none _ _ E r Hin) as Hf. cbv beta in Hf.
    cbn in Hf. rewrite Z.eqb_refl, date_eqb_refl in Hf. discriminate.
Qed.

Lemma registrar_dados_created (db db' : DB) (uid : Z) (hoje : date)
      (h c d s : option string) (body : Json) :
  registrar_dados db uid hoje h c d s = (db', Resp 201 body) ->
  registro_do_dia db uid hoje = None
  /\ campos_obrigatorios (novo_registro db uid hoje h c d s) = true
  /\ db' = podar (com_novo db (novo_registro db uid hoje h c d s)) uid.
Proof.
  rewrite registrar_dados_cases.
  destruct (registro_do_dia db uid hoje); [discriminate|]. cbv zeta.
  destruct (campos_obrigatorios _); [|discriminate].
  intros H. injection H as <- _. auto.
Qed.

Lemma podar_registros_only (db : DB) (us : list Usuario.t) (uid : Z) :
  registros (podar (mkDB us (registros db)) uid) = registros (podar db uid).
Proof.
  unfold podar, registros_de. cbn [registros].
  destruct (Nat.ltb _ _); trivial.
  now rewrite !fold_session_delete.
Qed.

Lemma NoDup_datas (db : DB) (uid : Z) :
  NoDup (map dia (registros db)) ->
  NoDup (map Registro.data (registros_de db uid)).
Proof.
  intros Hnd.
  apply (NoDup_map_filter _ _ dia
           (fun r => Z.eqb (Registro.id_usuario r) uid)) in Hnd.
  fold (registros_de db uid) in Hnd.
  apply (NoDup_map_inv (pair uid)). rewrite map_map.
  erewrite map_ext_in; [exact Hnd|].
  intros r Hr. apply filter_In in Hr as [_ Hu]. apply Z.eqb_eq in Hu.
  unfold dia. now rewrite Hu.
Qed.

Lemma sorted_desc_strict (l : list Registro.t) :
  StronglySorted
    (fun a b => date_leb (Registro.data b) (Registro.data a) = true) l ->
  NoDup (map Registro.data l) ->
  StronglySorted
    (fun a b => date_ltb (Registro.data b) (Registro.data a) = true) l.
Proof.
  induction 1 as [|a l Hs IH Hall]; cbn [map]; intros Hnd; [constructor|].
  apply NoDup_cons_iff in Hnd as [Hnotin Hnd]. constructor; auto.
  rewrite Forall_forall in *. intros b Hb.
  unfold date_ltb. apply negb_true_iff.
  destruct (date_leb (Registro.data a) (Registro.data b)) eqn:E; trivial.
  exfalso. apply Hnotin.
  rewrite (date_leb_antisym _ _ E (Hall b Hb)). now apply in_map.
Qed.

Section JournalMore.
Variable generate_password_hash : string -> string -> string.
Variable check_password_hash : string -> string -> bool.

Local Abbreviation reachable :=
  (reachable generate_password_hash check_password_hash).

(** X7.  In a reachable state, when [registrar_dados] answers 201,
    [ja_registrou_hoje] for that account and day answered false before and
    answers true after, and any further [registrar_dados] of the account
    on that day, whatever its fields, gets the conflict answer and changes
    nothing. *)
Theorem record_then_recorded (db db' : DB) (uid : Z) (hoje : date)
        (h c d s : option string) (body : Json) :
  reachable db ->
  registrar_dados db uid hoje h c d s = (db', Resp 201 body) ->
  snd (ja_registrou_hoje db uid hoje) = Resp 200 (JJaRegistrou false)
  /\ snd (ja_registrou_hoje db' uid hoje) = Resp 200 (JJaRegistrou true)
  /\ (forall h' c' d' s',
         registrar_dados db' uid hoje h' c' d' s'
         = (db', Resp 400 (JMsg "Você já registrou hoje."))).
Proof.
  intros Hreach Hreg. apply reachable_Inv in Hreach as HI.
  apply registrar_dados_created in Hreg as (Hdia & _ & ->).
  pose proof (registro_do_dia_apos db uid hoje h c d s HI Hdia) as Hapos.
  cbv zeta in Hapos. repeat split.
  - unfold ja_registrou_hoje. now rewrite Hdia.
  - unfold ja_registrou_hoje. now rewrite Hapos.
  - intros h' c' d' s'. rewrite registrar_dados_cases. now rewrite Hapos.
Qed.

(** X8.  In a reachable state the limit of 11 in [obter_registros] never
    cuts anything: the answer lists every entry of the account, once, and
    the dates in the list are strictly increasing. *)
Theorem history_is_complete (db : DB) (uid : Z) :
  reachable db ->
  exists l,
    snd (obter_registros db uid) = Resp 200 (JRegistros (map view l))
    /\ Permutation l (registros_de db uid)
    /\ StronglySorted
         (fun a b => date_ltb (Registro.data a) (Registro.data b) = true) l.
Proof.
  intros Hreach. apply reachable_Inv in Hreach as [_ [_ Hdias Hmax]].
  set (ordenados := order_by_desc data_leb (registros_de db uid)).
  assert (Permutation ordenados (registros_de db uid)) as Hperm
      by apply order_by_desc_perm.
  exists (rev ordenados). repeat split.
  - unfold obter_registros; cbn [snd]. fold ordenados.
    rewrite firstn_all2, map_rev; trivial.
    rewrite (Permutation_length Hperm). apply Hmax.
  - now rewrite <- Permutation_rev.
  - apply (StronglySorted_rev _
             (fun a b => date_ltb (Registro.data b) (Registro.data a) = true)).
    apply sorted_desc_strict.
    + apply (order_by_desc_sorted _ data_leb); unfold data_leb.
      * intros a b. apply date_leb_total.
      * intros a b c. apply date_leb_trans.
    + apply (Permutation_NoDup
               (Permutation_sym (Permutation_map Registro.data Hperm))).
      now apply NoDup_datas.
Qed.

(** X9.  In a reachable state [registrar_dados] for one account leaves
    the accounts table and the entries of every other account as they
    were, so the history of another account reads the same before and
    after. *)
Theorem record_touches_one_account (db : DB) (uid uid' : Z) (hoje : date)
        (h c d s : option string) :
  reachable db ->
  uid' <> uid ->
  let db' := fst (registrar_dados db uid hoje h c d s) in
  usuarios db' = usuarios db
  /\ registros_de db' uid' = registros_de db uid'
  /\ snd (obter_registros db' uid') = snd (obter_registros db uid').
Proof.
  intros Hreach Hne. apply reachable_Inv in Hreach as [_ [H1 _ _]].
  cbv zeta. rewrite registrar_dados_cases.
  destruct (registro_do_dia db uid hoje); cbn [fst]; [auto|].
  cbv zeta. destruct (campos_obrigatorios _); cbn [fst]; [|auto].
  set (r := novo_registro db uid hoje h c d s).
  pose proof (com_novo_ascending db uid hoje h c d s H1) as Hasc.
  fold r in Hasc.
  assert (registros_de (podar (com_novo db r) uid) uid'
          = registros_de db uid') as Hsame.
  { rewrite (registros_de_podar_other _ _ _ Hasc Hne).
    unfold com_novo. rewrite registros_de_snoc.
    replace (Z.eqb (Registro.id_usuario r) uid') with false
      by (symmetry; apply Z.eqb_neq; cbn; congruence).
    rewrite app_nil_r. now destruct db. }
  repeat split; trivial.
  - exact (podar_usuarios (com_novo db r) uid).
  - unfold obter_registros; cbn [snd]. now rewrite Hsame.
Qed.

End JournalMore.

(** X10.  [registrar_dados] never looks at the accounts table: with any
    other set of accounts, among them none, it gives the same answer and
    leaves the same entries, so a token whose account is missing still
    records. *)
Theorem record_ignores_accounts (db : DB) (us : list Usuario.t) (uid : Z)
        (hoje : date) (h c d s : option string) :
  let out := registrar_dados db uid hoje h c d s in
  let out' := registrar_dados (mkDB us (registros db)) uid hoje h c d s in
  snd out' = snd out
  /\ registros (fst out') = registros (fst out)
  /\ usuarios (fst out') = us.
Proof.
  cbv zeta. rewrite !registrar_dados_cases.
  change (registro_do_dia (mkDB us (registros db)) uid hoje)
    with (registro_do_dia db uid hoje).
  destruct (registro_do_dia db uid hoje); cbn [fst snd]; [auto|].
  cbv zeta.
  change (novo_registro (mkDB us (registros db)) uid hoje h c d s)
    with (novo_registro db uid hoje h c d s).
  destruct (campos_obrigatorios _); cbn [fst snd]; [|auto].
  repeat split.
  - apply (podar_registros_only (com_novo db _) us uid).
  - apply podar_usuarios.
Qed.

(** X11.  Retention corrects an overshoot: in any table whose rows are in
    increasing identifier order, however many entries the account has, a
    [registrar_dados] that stores its entry leaves the account with 11
    entries, or with all of them when that is fewer. *)
Theorem retention_self_corrects (db db' : DB) (uid : Z) (hoje : date)
        (h c d s : option string) (body : Json) :
  ascending (map Registro.id (registros db)) ->
  registrar_dados db uid hoje h c d s = (db', Resp 201 body) ->
  List.length (registros_de db' uid)
  = Nat.min 11 (S (List.length (registros_de db uid))).
Proof.
  intros H1 Hreg. apply registrar_dados_created in Hreg as (_ & _ & ->).
  pose proof (com_novo_ascending db uid hoje h c d s H1) as Hasc.
  rewrite (registros_de_podar _ uid Hasc). cbv zeta.
  rewrite length_skipn, registros_de_com_novo, length_app.
  cbn [List.length]. lia.
Qed.

(** ** More on profiles *)

Lemma find_none_intro (A : Type) (f : A -> bool) (l : list A) :
  (forall x, In x l -> f x = false) -> find f l = None.
Proof.
  intros H. destruct (find f l) as [x|] eqn:E; trivial.
  apply find_some in E as [Hin Hf]. rewrite (H x Hin) in Hf. discriminate.
Qed.

Lemma usuario_get_fresh (db : DB) :
  usuario_get db (next_rowid (map Usuario.id (usuarios db))) = None.
Proof.
  apply find_none_intro. intros x Hin. apply Z.eqb_neq.
  pose proof (next_rowid_gt (map Usuario.id (usuarios db))) as Hgt.
  rewrite Forall_forall in Hgt.
  specialize (Hgt _ (in_map Usuario.id _ _ Hin)). lia.
Qed.

Lemma truthy_some (s : string) :
  s <> EmptyString -> Py.truthy (Some s) = true.
Proof. intros H. cbn. apply negb_true_iff. now apply String.eqb_neq. Qed.

Lemma or_else_some (s b : string) :
  s <> EmptyString -> Py.or_else (Some s) b = s.
Proof.
  intros H. cbn. now destruct (String.eqb_spec s EmptyString).
Qed.

(** X12.  On an existing account, [onboarding] with a non-empty name makes
    [get_usuario] show that name, with no name or an empty one the name
    stays; email and image are as before.  [update_onboarding] changes
    nothing [get_usuario] shows, and [onboarding] changes nothing it shows
    of any other account. *)
Theorem onboarding_sets_name (db : DB) (uid : Z) (u : Usuario.t)
        (nome : option string) :
  usuario_get db uid = Some u ->
  snd (get_usuario (fst (onboarding db uid nome)) uid)
  = Resp 200 (JUsuario (if Py.truthy nome then nome else Usuario.nome u)
                       (Usuario.email u)
                       (Py.or_else (Usuario.imagem_url u)
                                   "/avatar-placeholder.svg"))
  /\ snd (get_usuario (fst (update_onboarding db uid)) uid)
     = snd (get_usuario db uid)
  /\ (forall uid', uid' <> uid ->
                   snd (get_usuario (fst (onboarding db uid nome)) uid')
                   = snd (get_usuario db uid')).
Proof.
  intros Hget. repeat split.
  - rewrite (onboarding_found db uid u nome Hget). cbn [fst].
    unfold get_usuario.
    rewrite (usuario_get_updated db uid u _ Hget (apos_onboarding_id u nome)).
    unfold apos_onboarding. now destruct (Py.truthy nome).
  - rewrite (update_onboarding_found db uid u Hget). cbn [fst].
    unfold get_usuario.
    rewrite (usuario_get_updated db uid u (set_onboarding_done u)
               Hget eq_refl).
    now rewrite Hget.
  - intros uid' Hne. rewrite (onboarding_found db uid u nome Hget).
    cbn [fst]. unfold get_usuario.
    rewrite (usuario_get_update db uid uid' u (apos_onboarding u nome) Hget
               (apos_onboarding_id u nome)).
    destruct (Z.eqb_spec uid' uid) as [E|E]; [contradiction|].
    now destruct (usuario_get db uid').
Qed.

(** X13.  When the Cloudinary upload raises, [upload_image] ends in that
    exception with the database untouched, although the old asset's
    [destroy] has already been issued: the account keeps pointing at the
    identifier it asked to delete.  With a file but no account the handler
    raises before any Cloudinary call. *)
Theorem upload_failure_keeps_reference (db : DB) (uid : Z)
        (f : FileStorage) (dr : bool) :
  file_truthy (Some f) = true ->
  (forall u pid,
      usuario_get db uid = Some u ->
      Usuario.imagem_public_id u = Some pid ->
      pid <> EmptyString ->
      upload_image db uid (Some f) dr None
      = (db, Unhandled CloudinaryError,
         Destroy pid :: (if dr then [PrintErro] else []) ++ [Upload f]))
  /\ (forall ur,
         usuario_get db uid = None ->
         upload_image db uid (Some f) dr ur
         = (db, Unhandled AttributeError, [])).
Proof.
  intros Hfile. split.
  - intros u pid Hget Hpid Hne. unfold upload_image.
    rewrite Hfile, Hget, Hpid, (truthy_some pid Hne). now destruct dr.
  - intros ur Hget. unfold upload_image. now rewrite Hfile, Hget.
Qed.

(** X14.  After a successful [upload_image] that returned a non-empty url
    and identifier, [get_usuario] shows the new url instead of the
    placeholder, and the next [upload_image] of the account begins by
    destroying exactly the identifier stored by this one. *)
Theorem upload_then_profile (db : DB) (uid : Z) (u : Usuario.t)
        (f : FileStorage) (dr : bool) (url pid : string) :
  usuario_get db uid = Some u ->
  file_truthy (Some f) = true ->
  url <> EmptyString ->
  pid <> EmptyString ->
  let db' := fst (fst (upload_image db uid (Some f) dr (Some (url, pid)))) in
  snd (get_usuario db' uid)
  = Resp 200 (JUsuario (Usuario.nome u) (Usuario.email u) url)
  /\ (forall f' dr' ur',
         file_truthy (Some f') = true ->
         snd (upload_image db' uid (Some f') dr' ur')
         = Destroy pid :: (if dr' then [PrintErro] else []) ++ [Upload f']).
Proof.
  intros Hget Hfile Hurl Hpid. cbv zeta.
  assert (fst (fst (upload_image db uid (Some f) dr (Some (url, pid))))
          = update_usuario db (set_imagem u url pid)) as ->
      by (unfold upload_image; now rewrite Hfile, Hget).
  pose proof (usuario_get_updated db uid u (set_imagem u url pid)
                Hget eq_refl) as Hget'.
  split.
  - unfold get_usuario. rewrite Hget'.
    cbn [set_imagem Usuario.nome Usuario.email Usuario.imagem_url snd].
    now rewrite (or_else_some url _ Hurl).
  - intros f' dr' ur' Hfile'. unfold upload_image.
    rewrite Hfile', Hget'. cbn [set_imagem Usuario.imagem_public_id].
    rewrite (truthy_some pid Hpid).
    destruct ur' as [[url' pid']|], dr'; reflexivity.
Qed.

(** X15.  The store itself refuses a second account with an email already
    in the table, and an account without email: inserting either raises
    [IntegrityError], whatever the handler checked before. *)
Theorem store_rejects_duplicate_email (db : DB) (senha_hash : string) :
  (forall u e,
      In u (usuarios db) -> Usuario.email u = Some e ->
      insert_usuario db (Some e) senha_hash = inl IntegrityError)
  /\ insert_usuario db None senha_hash = inl IntegrityError.
Proof.
  split.
  - intros u e Hin Hemail. unfold insert_usuario.
    rewrite usuario_null_violation, usuario_unique_violation.
    cbn [Usuario.new Usuario.email Usuario.id orb].
    replace (existsb (fun x => match Usuario.email x with
                               | Some b => String.eqb e b
                               | None => false
                               end) (usuarios db)) with true;
      [now rewrite orb_true_r|].
    symmetry. apply existsb_exists. exists u. split; trivial.
    rewrite Hemail. apply String.eqb_refl.
  - unfold insert_usuario. now rewrite usuario_null_violation.
Qed.

Section ProfilesMore.
Variable generate_password_hash : string -> string -> string.
Variable check_password_hash : string -> string -> bool.

Local Abbreviation register := (register generate_password_hash).
Local Abbreviation reachable :=
  (reachable generate_password_hash check_password_hash).

(** X16.  In a reachable state a [register] request without an email ends
    in [IntegrityError], and one without a password (for an email not yet
    taken) in [AttributeError]; neither creates an account. *)
Theorem register_missing_fields (db : DB) (email : option string)
        (pw salt : string) :
  reachable db ->
  register db None (Some pw) salt = (db, Unhandled IntegrityError)
  /\ (usuario_by_email db email = None ->
      register db email None salt = (db, Unhandled AttributeError)).
Proof.
  intros Hreach. apply reachable_Inv in Hreach as [[_ _ Hnn] _]. split.
  - assert (usuario_by_email db None = None) as Hby.
    { apply find_none_intro. intros x Hin.
      destruct (Usuario.email x) as [e|] eqn:E; trivial.
      exfalso. apply Hnn. rewrite <- E. now apply in_map. }
    unfold register. rewrite Hby.
    now rewrite (insert_usuario_fresh db None _ Hby).
  - intros Hby. unfold register. now rewrite Hby.
Qed.

(** X17.  Right after a [register] that answered 201, the new account has
    the next identifier, [get_usuario] shows the name ["User"], the
    submitted email and the placeholder image, and [check_onboarding]
    answers that onboarding is required. *)
Theorem new_account_profile (db db1 : DB) (email senha : option string)
        (salt : string) (body : Json) :
  register db email senha salt = (db1, Resp 201 body) ->
  let uid := next_rowid (map Usuario.id (usuarios db)) in
  snd (get_usuario db1 uid)
  = Resp 200 (JUsuario (Some "User"%string) email "/avatar-placeholder.svg")
  /\ snd (check_onboarding db1 uid) = Resp 200 (JOnboarding true).
Proof.
  intros Hreg. cbv zeta.
  apply register_created in Hreg as (e & pw & -> & -> & Hby & ->).
  set (uid := next_rowid (map Usuario.id (usuarios db))).
  set (u := Usuario.new uid (Some e) (generate_password_hash salt pw)).
  assert (usuario_get (mkDB (usuarios db ++ [u]) (registros db)) uid
          = Some u) as Hget.
  { unfold usuario_get. cbn [usuarios].
    rewrite (find_app_none _ _ _ _ (usuario_get_fresh db)). cbn.
    now rewrite Z.eqb_refl. }
  unfold get_usuario, check_onboarding. now rewrite Hget.
Qed.

End ProfilesMore.

(** ** The date text of a view *)

(** The number a decimal text stands for, leading zeros allowed. *)
Definition valor (s : string) : option nat :=
  option_map Nat.of_uint (NilEmpty.uint_of_string s).

Fixpoint sem_hifen (s : string) : bool :=
  match s with
  | EmptyString => true
  | String c s' => negb (Ascii.eqb c "-") && sem_hifen s'
  end.

Lemma valor_decimal (n : nat) :
  valor (NilZero.string_of_uint (Nat.to_uint n)) = Some n.
Proof.
  unfold valor. pose proof (DecimalNat.Unsigned.of_to n) as Hn.
  destruct (Nat.to_uint n) eqn:E;
    try (cbn [NilZero.string_of_uint]; rewrite NilEmpty.usu; cbn [option_map];
         now rewrite Hn).
  cbn in *. now rewrite <- Hn.
Qed.

Lemma valor_two_digits (n : nat) : valor (two_digits n) = Some n.
Proof.
  unfold two_digits. destruct (Nat.ltb n 10); [|apply valor_decimal].
  pose proof (valor_decimal n) as H. unfold valor in *.
  cbn [NilEmpty.uint_of_string].
  destruct (NilEmpty.uint_of_string _) as [d|]; [|discriminate].
  cbn in *. exact H.
Qed.

Lemma sem_hifen_uint (d : Decimal.uint) :
  sem_hifen (NilEmpty.string_of_uint d) = true.
Proof. induction d; cbn; trivial. Qed.

Lemma sem_hifen_decimal (n : nat) :
  sem_hifen (NilZero.string_of_uint (Nat.to_uint n)) = true.
Proof.
  destruct (Nat.to_uint n) eqn:E; trivial;
    cbn [NilZero.string_of_uint]; apply sem_hifen_uint.
Qed.

Lemma sem_hifen_two_digits (n : nat) : sem_hifen (two_digits n) = true.
Proof.
  unfold two_digits. destruct (Nat.ltb n 10); cbn [sem_hifen];
    now rewrite ?sem_hifen_decimal.
Qed.

Lemma split_hifen (a a' b b' : string) :
  sem_hifen a = true -> sem_hifen a' = true ->
  (a ++ "-" ++ b)%string = (a' ++ "-" ++ b')%string ->
  a = a' /\ b = b'.
Proof.
  revert a'. induction a as [|c a IH]; intros [|c' a'] Ha Ha' E; cbn in *.
  - injection E as ->. auto.
  - injection E as <- _. discriminate.
  - injection E as -> _. discriminate.
  - injection E as -> E.
    apply andb_true_iff in Ha as [_ Ha]. apply andb_true_iff in Ha' as [_ Ha'].
    destruct (IH a' Ha Ha' E) as [-> ->]. auto.
Qed.

(** The text of a date determines the date. *)
Lemma strftime_Ymd_inj (a b : date) :
  strftime_Ymd a = strftime_Ymd b -> a = b.
Proof.
  unfold strftime_Ymd. intros E.
  apply split_hifen in E as [Ey E]; try apply sem_hifen_decimal.
  apply split_hifen in E as [Em Ed]; try apply sem_hifen_two_digits.
  apply (f_equal valor) in Ey, Em, Ed.
  rewrite !valor_decimal in Ey. rewrite !valor_two_digits in Em, Ed.
  destruct a, b; cbn in *. congruence.
Qed.

Lemma NoDup_firstn (A : Type) (n : nat) (l : list A) :
  NoDup l -> NoDup (firstn n l).
Proof.
  intros H. rewrite <- (firstn_skipn n l) in H.
  now apply NoDup_app_remove_r in H.
Qed.

Lemma NoDup_map_injective (A B : Type) (f : A -> B) (l : list A) :
  (forall x y, f x = f y -> x = y) -> NoDup l -> NoDup (map f l).
Proof.
  intros Hinj. induction 1 as [|a l Hnotin Hnd IH]; cbn; constructor; trivial.
  intros Hin. apply in_map_iff in Hin as (x & Hx & Hin).
  apply Hinj in Hx. now subst.
Qed.

Section HistoryDates.
Variable generate_password_hash : string -> string -> string.
Variable check_password_hash : string -> string -> bool.

(** X18.  In a reachable state the date texts in the answer of
    [obter_registros] are pairwise distinct: each listed day appears once
    and its text names it. *)
Theorem history_dates_distinct (db : DB) (uid : Z) :
  reachable generate_password_hash check_password_hash db ->
  exists vs,
    snd (obter_registros db uid) = Resp 200 (JRegistros vs)
    /\ NoDup (map view_data vs).
Proof.
  intros Hreach. apply reachable_Inv in Hreach as [_ [_ Hdias _]].
  eexists. split; [reflexivity|].
  rewrite map_rev. apply NoDup_rev. rewrite map_map.
  change (fun x => view_data (view x))
    with (fun x => strftime_Ymd (Registro.data x)).
  rewrite <- (map_map Registro.data strftime_Ymd).
  apply NoDup_map_injective; [exact strftime_Ymd_inj|].
  rewrite <- firstn_map. apply NoDup_firstn.
  apply (Permutation_NoDup
           (Permutation_sym
              (Permutation_map Registro.data
                 (order_by_desc_perm _ data_leb (registros_de db uid))))).
  now apply NoDup_datas.
Qed.

End HistoryDates.

(** * More instances *)

(** Thirteen entries of account 1 in a table that no request trimmed. *)
Definition db_excesso : DB :=
  mkDB []
       (map (fun n => Registro.mk (Z.of_nat n) (mkdate 2024 1 n)
                                  (Some "ok"%string) (Some "calm"%string)
                                  None (Some "7"%string) 1)
            (seq 1 13)).

Definition conta_a : Usuario.t :=
  Usuario.mk 1 (Some "a@x.com"%string) "p1" (Some "User"%string)
             None None true.

Lemma failure_writes_nothing_witness :
  sucesso (snd (handle generate_clear check_clear db_uma_conta
                       (ReqOnboarding 2 (Some "Ana"%string)))) = false
  /\ step generate_clear check_clear db_uma_conta
          (ReqOnboarding 2 (Some "Ana"%string)) = db_uma_conta.
Proof.
  split; [reflexivity|].
  apply (failure_writes_nothing generate_clear check_clear). reflexivity.
Defined.

Lemma accounts_keep_credentials_witness :
  reachable generate_clear check_clear db_uma_conta
  /\ exists novos,
      map credenciais
          (usuarios (step generate_clear check_clear db_uma_conta
                          (ReqOnboarding 1 (Some "Ana"%string))))
      = map credenciais (usuarios db_uma_conta) ++ novos
      /\ List.length novos <= 1.
Proof.
  split; [apply reachable_run|].
  apply (accounts_keep_credentials generate_clear check_clear).
  apply reachable_run.
Defined.

Lemma account_ids_consecutive_witness :
  reachable generate_clear check_clear db_uma_conta
  /\ map Usuario.id (usuarios db_uma_conta) = [1%Z].
Proof.
  split; [apply reachable_run|].
  exact (proj1 (account_ids_consecutive generate_clear check_clear
                  db_uma_conta
                  (reachable_run generate_clear check_clear _))).
Defined.

Lemma image_columns_paired_witness :
  reachable generate_clear check_clear db_com_imagem
  /\ In (Usuario.mk 1 (Some "a@x.com"%string) "p1" (Some "User"%string)
                    (Some "https://img/1"%string) (Some "mood/1"%string)
                    true) (usuarios db_com_imagem)
  /\ (Some "https://img/1"%string = None
      <-> Some "mood/1"%string = None).
Proof.
  assert (reachable generate_clear check_clear db_com_imagem) as Hreach
      by (apply reachable_step, reachable_run).
  split; [exact Hreach|]. split; [left; reflexivity|].
  apply (image_columns_paired generate_clear check_clear db_com_imagem
           (Usuario.mk 1 (Some "a@x.com"%string) "p1" (Some "User"%string)
                       (Some "https://img/1"%string) (Some "mood/1"%string)
                       true) Hreach).
  left. reflexivity.
Defined.

Lemma login_survives_later_requests_witness :
  (forall salt senha, check_clear (generate_clear salt senha) senha = true)
  /\ reachable generate_clear check_clear empty_db
  /\ register generate_clear empty_db (Some "a@x.com"%string)
              (Some "p1"%string) "s"
     = (db_uma_conta, Resp 201 (JMsg "Usuário criado com sucesso"))
  /\ exists flag,
      login check_clear db_com_imagem (Some "a@x.com"%string)
            (Some "p1"%string)
      = (db_com_imagem, Resp 200 (JLogin (mkToken (Py.str 1) 1) 1 flag)).
Proof.
  split; [exact check_generate_clear|]. split; [constructor|].
  split; [reflexivity|].
  exact (login_survives_later_requests
           generate_clear check_clear check_generate_clear
           empty_db db_uma_conta (Some "a@x.com"%string) (Some "p1"%string)
           "s" (JMsg "Usuário criado com sucesso")
           [ReqUploadImage 1 (Some (mkFile "a.png" "..."))
                           false
                           (Some ("https://img/1"%string, "mood/1"%string))]
           (reachable_init generate_clear check_clear) eq_refl).
Defined.

Lemma login_token_names_account_witness :
  reachable generate_clear check_clear db_uma_conta
  /\ login check_clear db_uma_conta (Some "a@x.com"%string)
           (Some "p1"%string)
     = (db_uma_conta, Resp 200 (JLogin (mkToken "1" 1) 1 true))
  /\ Py.int "1" = Some 1%Z.
Proof.
  split; [apply reachable_run|]. split; [reflexivity|].
  destruct (login_token_names_account
              generate_clear check_clear db_uma_conta db_uma_conta
              (Some "a@x.com"%string) (Some "p1"%string)
              (mkToken "1" 1) 1 true
              (reachable_run generate_clear check_clear _) eq_refl)
    as (_ & H & _).
  exact H.
Defined.

Lemma record_then_recorded_witness :
  reachable generate_clear check_clear empty_db
  /\ registrar_dados empty_db 1 dia_1 (Some "ok"%string)
                     (Some "calm"%string) None (Some "7"%string)
     = (mkDB [] [registro_a], Resp 201 (JMsg "Registro salvo com sucesso."))
  /\ snd (ja_registrou_hoje (mkDB [] [registro_a]) 1 dia_1)
     = Resp 200 (JJaRegistrou true).
Proof.
  split; [constructor|]. split; [reflexivity|].
  destruct (record_then_recorded
              generate_clear check_clear empty_db (mkDB [] [registro_a])
              1 dia_1 (Some "ok"%string) (Some "calm"%string) None
              (Some "7"%string) (JMsg "Registro salvo com sucesso.")
              (reachable_init generate_clear check_clear) eq_refl)
    as (_ & H & _).
  exact H.
Defined.

Lemma history_is_complete_witness :
  reachable generate_clear check_clear db_doze_dias
  /\ exists l,
      snd (obter_registros db_doze_dias 1) = Resp 200 (JRegistros (map view l))
      /\ Permutation l (registros_de db_doze_dias 1)
      /\ StronglySorted
           (fun a b => date_ltb (Registro.data a) (Registro.data b) = true) l.
Proof.
  split; [apply reachable_run|].
  apply (history_is_complete generate_clear check_clear).
  apply reachable_run.
Defined.

Lemma record_touches_one_account_witness :
  reachable generate_clear check_clear db_doze_dias
  /\ 2%Z <> 1%Z
  /\ registros_de
       (fst (registrar_dados db_doze_dias 2 dia_1 (Some "ok"%string)
                             (Some "calm"%string) None (Some "7"%string))) 1
     = registros_de db_doze_dias 1.
Proof.
  split; [apply reachable_run|]. split; [discriminate|].
  destruct (record_touches_one_account
              generate_clear check_clear db_doze_dias 2 1 dia_1
              (Some "ok"%string) (Some "calm"%string) None (Some "7"%string)
              (reachable_run generate_clear check_clear _))
    as (_ & H & _); [discriminate|].
  exact H.
Defined.

Lemma db_excesso_ascending :
  ascending (map Registro.id (registros db_excesso)).
Proof.
  cbn. repeat (apply SSorted_cons || apply SSorted_nil
               || apply Forall_cons || apply Forall_nil || reflexivity).
Qed.

Lemma retention_self_corrects_witness :
  ascending (map Registro.id (registros db_excesso))
  /\ List.length (registros_de db_excesso 1) = 13
  /\ List.length
       (registros_de
          (fst (registrar_dados db_excesso 1 (mkdate 2024 1 14)
                                (Some "ok"%string) (Some "calm"%string) None
                                (Some "7"%string))) 1) = 11.
Proof.
  split; [exact db_excesso_ascending|]. split; [reflexivity|].
  exact (retention_self_corrects
           db_excesso
           (fst (registrar_dados db_excesso 1 (mkdate 2024 1 14)
                                 (Some "ok"%string) (Some "calm"%string) None
                                 (Some "7"%string)))
           1 (mkdate 2024 1 14) (Some "ok"%string) (Some "calm"%string) None
           (Some "7"%string) (JMsg "Registro salvo com sucesso.")
           db_excesso_ascending eq_refl).
Defined.

Lemma onboarding_sets_name_witness :
  usuario_get db_uma_conta 1 = Some conta_a
  /\ snd (get_usuario (fst (onboarding db_uma_conta 1 (Some "Ana"%string))) 1)
     = Resp 200 (JUsuario (Some "Ana"%string) (Some "a@x.com"%string)
                          "/avatar-placeholder.svg").
Proof.
  split; [reflexivity|].
  exact (proj1 (onboarding_sets_name db_uma_conta 1 conta_a
                                     (Some "Ana"%string) eq_refl)).
Defined.

Lemma upload_failure_keeps_reference_witness :
  file_truthy (Some (mkFile "b.png" "...")) = true
  /\ upload_image db_com_imagem 1 (Some (mkFile "b.png" "...")) false None
     = (db_com_imagem, Unhandled CloudinaryError,
        [Destroy "mood/1"; Upload (mkFile "b.png" "...")]).
Proof.
  split; [reflexivity|].
  destruct (upload_failure_keeps_reference
              db_com_imagem 1 (mkFile "b.png" "...") false eq_refl)
    as (H & _).
  apply (H _ "mood/1"%string eq_refl eq_refl). discriminate.
Defined.

Lemma upload_then_profile_witness :
  usuario_get db_uma_conta 1 = Some conta_a
  /\ snd (get_usuario db_com_imagem 1)
     = Resp 200 (JUsuario (Some "User"%string) (Some "a@x.com"%string)
                          "https://img/1").
Proof.
  split; [reflexivity|].
  refine (proj1 (upload_then_profile
                   db_uma_conta 1 conta_a (mkFile "a.png" "...") false
                   "https://img/1" "mood/1" eq_refl eq_refl _ _));
    discriminate.
Defined.

Lemma store_rejects_duplicate_email_witness :
  In conta_a (usuarios db_uma_conta)
  /\ insert_usuario db_uma_conta (Some "a@x.com"%string) "outra"
     = inl IntegrityError.
Proof.
  split; [left; reflexivity|].
  apply (proj1 (store_rejects_duplicate_email db_uma_conta "outra")
               conta_a "a@x.com"%string).
  - left. reflexivity.
  - reflexivity.
Defined.

Lemma register_missing_fields_witness :
  reachable generate_clear check_clear db_uma_conta
  /\ register generate_clear db_uma_conta None (Some "p2"%string) "s"
     = (db_uma_conta, Unhandled IntegrityError).
Proof.
  split; [apply reachable_run|].
  exact (proj1 (register_missing_fields
                  generate_clear check_clear db_uma_conta None "p2" "s"
                  (reachable_run generate_clear check_clear _))).
Defined.

Lemma new_account_profile_witness :
  register generate_clear empty_db (Some "a@x.com"%string)
           (Some "p1"%string) "s"
  = (db_uma_conta, Resp 201 (JMsg "Usuário criado com sucesso"))
  /\ snd (get_usuario db_uma_conta 1)
     = Resp 200 (JUsuario (Some "User"%string) (Some "a@x.com"%string)
                          "/avatar-placeholder.svg").
Proof.
  split; [reflexivity|].
  exact (proj1 (new_account_profile
                  generate_clear empty_db db_uma_conta
                  (Some "a@x.com"%string) (Some "p1"%string) "s"
                  (JMsg "Usuário criado com sucesso") eq_refl)).
Defined.

Lemma history_dates_distinct_witness :
  reachable generate_clear check_clear db_doze_dias
  /\ exists vs,
      snd (obter_registros db_doze_dias 1) = Resp 200 (JRegistros vs)
      /\ NoDup (map view_data vs).
Proof.
  split; [apply reachable_run|].
  apply (history_dates_distinct generate_clear check_clear).
  apply reachable_run.
Defined.
